(** * A shallow embedding of FlexGet's movie queue

    Source: flexget/plugins/filter/movie_queue.py.

    The SQLAlchemy session is modelled as the list of rows of the
    [movie_queue] table (joined with its [queue] base table) in storage
    order; the functions of the plugin become computations in a small
    state-and-exception monad over that list. *)

From stdpp Require Import base tactics option strings numbers list.

Open Scope string_scope.
Open Scope list_scope.
Open Scope Z_scope.

(** ** Python values *)

(** Truthiness of an optional string ([None] and [''] are falsy) and of an
    optional integer ([None] and [0] are falsy). *)
Definition truthy_str (v : option string) : bool :=
  match v with
  | Some s => negb (bool_decide (s = ""))
  | None => false
  end.

Definition truthy_int (v : option Z) : bool :=
  match v with
  | Some z => negb (bool_decide (z = 0))
  | None => false
  end.

(** [a or b] on optional strings. *)
Definition or_str (a b : option string) : option string :=
  if truthy_str a then a else b.

(** ** Rows: class QueuedMovie(queue_base.QueuedItem, Base)

    The columns are the ones [to_dict] lists; [id], [title], [added],
    [downloaded] and the three [entry_*] provenance columns are inherited
    from [queue_base.QueuedItem].  Timestamps are integers. *)
Module QueuedMovie.
Record t : Type := Build {
  id : Z;
  title : option string;
  added : Z;
  downloaded : option Z;
  entry_title : option string;
  entry_url : option string;
  entry_original_url : option string;
  imdb_id : option string;
  tmdb_id : option Z;
  quality : string
}.

#[global] Instance eq_dec : EqDecision t.
Proof. solve_decision. Defined.

(** [item.downloaded = v] *)
Definition set_downloaded (v : option Z) (r : t) : t :=
  Build (id r) (title r) (added r) v (entry_title r) (entry_url r)
        (entry_original_url r) (imdb_id r) (tmdb_id r) (quality r).

(** [item.quality = q] *)
Definition set_quality (q : string) (r : t) : t :=
  Build (id r) (title r) (added r) (downloaded r) (entry_title r)
        (entry_url r) (entry_original_url r) (imdb_id r) (tmdb_id r) q.
End QueuedMovie.

Abbreviation Session := (list QueuedMovie.t).

(** ** Exceptions *)

(** The message of a [QueueError], kept structured: one constructor per
    format string of the source, with the values that are interpolated. *)
Inductive message : Type :=
  | AlreadyDownloaded (title : option string)
      (* 'ERROR: %s has already been queued and downloaded' *)
  | AlreadyQueued (title : option string)
      (* 'ERROR: %s is already in the queue' *)
  | NotFound (title imdb_id : option string) (tmdb_id : option Z)
      (* 'title=%s, imdb_id=%s, tmdb_id=%s not found from queue' *)
  | AmbiguousSelector (title imdb_id : option string) (tmdb_id : option Z)
      (* 'title=%s, imdb_id=%s, tmdb_id=%s matches multiple results in queue' *)
  | NotDownloaded (title : option string)
      (* '%s is not marked as downloaded' *)
  | EditNotFound (imdb_id : option string) (tmdb_id : option Z)
      (* 'imdb_id=%s, tmdb_id=%s not found from queue' *)
  | LookupIncomplete.
      (* the message of the KeyError raised for 'movie_name' *)

Inductive exn : Type :=
  | QueueError (msg : message) (errno : Z)
  | AttributeError
  | NoResultFound
  | MultipleResultsFound
  | ZeroDivisionError
  | IndexError.

#[global] Instance message_eq_dec : EqDecision message.
Proof. solve_decision. Defined.
#[global] Instance exn_eq_dec : EqDecision exn.
Proof. solve_decision. Defined.

(** ** Computations over a session

    A computation returns its outcome (a value or the exception raised)
    together with the session as it has left it. *)
Definition M (A : Type) : Type := Session → (exn + A) * Session.

#[global] Instance M_ret : MRet M := λ A a s, (inr a, s).
#[global] Instance M_bind : MBind M := λ A B f m s,
  match m s with
  | (inr a, s') => f a s'
  | (inl e, s') => (inl e, s')
  end.

Definition raise {A} (e : exn) : M A := λ s, (inl e, s).

(** [try: m except NoResultFound / MultipleResultsFound: ...] *)
Definition try_except {A} (m : M A) (handler : exn → option (M A)) : M A :=
  λ s, match m s with
       | (inl e, s') => match handler e with
                        | Some h => h s'
                        | None => (inl e, s')
                        end
       | r => r
       end.

(** [session.query(QueuedMovie).filter(P)] *)
Definition query (P : QueuedMovie.t → Prop) `{∀ r, Decision (P r)} : M Session :=
  λ s, (inr (filter P s), s).

(** [Query.first()] and [Query.one()] *)
Definition first (rows : Session) : option QueuedMovie.t := head rows.

Definition one (rows : Session) : M QueuedMovie.t :=
  match rows with
  | [] => raise NoResultFound
  | [item] => mret item
  | _ => raise MultipleResultsFound
  end.

(** The value of the autoincremented primary key of the next row. *)
Definition next_id (s : Session) : Z :=
  1 + foldr Z.max 0 (QueuedMovie.id <$> s).

(** [session.add(item)], [session.delete(item)] and the flush of an
    attribute assignment on a persistent item (rows are identified by
    their primary key). *)
Definition session_add (item : QueuedMovie.t) : M unit :=
  λ s, (inr (), s ++ [item]).

Definition session_delete (item : QueuedMovie.t) : M unit :=
  λ s, (inr (), filter (λ r, QueuedMovie.id r ≠ QueuedMovie.id item) s).

Definition session_update (item : QueuedMovie.t)
    (f : QueuedMovie.t → QueuedMovie.t) : M unit :=
  λ s, (inr (),
        (λ r, if decide (QueuedMovie.id r = QueuedMovie.id item) then f r else r) <$> s).

(** The primary key is unique. *)
Definition wf (s : Session) : Prop := NoDup (QueuedMovie.id <$> s).

#[global] Instance wf_dec s : Decision (wf s).
Proof. unfold wf. apply _. Defined.

Definition lift {A} (r : exn + A) : M A := λ s, (r, s).

(** ** The identity resolver: parse_what *)

(** The dictionary with 'title', 'imdb_id' and 'tmdb_id' keys that
    [parse_what] returns after a lookup; the ids have the types of the
    columns they are stored in. *)
Module Identity.
Record t : Type := Build {
  title : option string;
  imdb_id : option string;
  tmdb_id : option Z
}.
#[global] Instance eq_dec : EqDecision t.
Proof. solve_decision. Defined.
End Identity.

(** The same dictionary as it is before the lookup: what the search
    string `what` provides directly ([tmdb_id] is the text after
    'tmdb_id='). *)
Module Parsed.
Record t : Type := Build {
  title : option string;
  imdb_id : option string;
  tmdb_id : option string
}.
#[global] Instance eq_dec : EqDecision t.
Proof. solve_decision. Defined.
End Parsed.

(** [search_entry = Entry(title=...)] with the ids that are known. *)
Module SearchEntry.
Record t : Type := Build {
  title : string;
  imdb_id : option string;
  tmdb_id : option string
}.
End SearchEntry.

(** The metadata collaborators of [parse_what], which live outside this
    plugin: [flexget.utils.imdb.extract_id] and the lazy imdb/tmdb lookups
    run on the search entry.  [lookup e] is the triple read back from the
    search entry, [None] when 'movie_name' could not be populated (the
    KeyError of the source). *)
Class Lookup : Type := {
  extract_id : string → option string;
  lookup : SearchEntry.t → option Identity.t
}.

(** The quality collaborator [flexget.utils.qualities]: a requirement is
    kept as its text (the [quality] column), [allows req q] is
    [Requirements(req).allows(q)] and [default_quality] is
    [qualities.Quality()]. *)
Class Qualities : Type := {
  Quality : Type;
  default_quality : Quality;
  allows : string → Quality → bool
}.

Section Resolver.
Context `{Lookup}.

(** [parse_what] up to [if not lookup: return result]; this is the value
    of [parse_what(what, lookup=False)].  [what] is [None] when the
    caller had nothing to pass: no id is extracted from it and
    [what.startswith] raises AttributeError. *)
Definition parse_direct (what : option string) : exn + Parsed.t :=
  match what with
  | None => inl AttributeError
  | Some what =>
      let imdb_id := extract_id what in
      if negb (truthy_str imdb_id) then
        if String.prefix "tmdb_id=" what then
          inr (Parsed.Build None imdb_id
                 (Some (String.substring 8 (String.length what - 8) what)))
        else
          inr (Parsed.Build (Some what) imdb_id None)
      else inr (Parsed.Build None imdb_id None)
  end.

(** [parse_what(what)] with the default [lookup=True]. *)
Definition parse_what (what : option string) : exn + Identity.t :=
  match parse_direct what with
  | inl e => inl e
  | inr result =>
      let search_entry :=
        SearchEntry.Build
          (default "" (or_str (Parsed.title result) (Some "")))
          (if truthy_str (Parsed.imdb_id result) then Parsed.imdb_id result else None)
          (if truthy_str (Parsed.tmdb_id result) then Parsed.tmdb_id result else None) in
      match lookup search_entry with
      | Some found => inr found
      | None => inl (QueueError LookupIncomplete 0)
      end
  end.
End Resolver.

(** ** API functions to edit queue *)

(** The filter of [queue_add]:
    [or_(and_(imdb_id != None, imdb_id == imdb_id),
         and_(tmdb_id != None, tmdb_id == tmdb_id))]. *)
Definition already_queued (imdb_id : option string) (tmdb_id : option Z)
    (r : QueuedMovie.t) : Prop :=
  (QueuedMovie.imdb_id r ≠ None ∧ QueuedMovie.imdb_id r = imdb_id) ∨
  (QueuedMovie.tmdb_id r ≠ None ∧ QueuedMovie.tmdb_id r = tmdb_id).

#[global] Instance already_queued_dec imdb_id tmdb_id r :
  Decision (already_queued imdb_id tmdb_id r).
Proof. unfold already_queued. apply _. Defined.

(** The filter of [queue_del] and [queue_forget]: the if/elif chain over
    [imdb_id], [tmdb_id], [title]; no filter at all when all are falsy. *)
Definition selected (title imdb_id : option string) (tmdb_id : option Z)
    (r : QueuedMovie.t) : Prop :=
  if truthy_str imdb_id then QueuedMovie.imdb_id r = imdb_id
  else if truthy_int tmdb_id then QueuedMovie.tmdb_id r = tmdb_id
  else if truthy_str title then QueuedMovie.title r = title
  else True.

#[global] Instance selected_dec title imdb_id tmdb_id r :
  Decision (selected title imdb_id tmdb_id r).
Proof.
  unfold selected.
  destruct (truthy_str imdb_id), (truthy_int tmdb_id), (truthy_str title); apply _.
Defined.

Section QueueAdd.
Context `{Lookup}.

(** The identity [queue_add] goes on with after its lookup step: the
    arguments when they are complete, else what [parse_what] returns
    for [imdb_id or title]. *)
Definition resolved (title imdb_id : option string) (tmdb_id : option Z)
    : exn + Identity.t :=
  if negb (truthy_str title)
     || negb (truthy_str imdb_id || truthy_int tmdb_id)
  then parse_what (or_str imdb_id title)
  else inr (Identity.Build title imdb_id tmdb_id).

(** [queue_add(title, imdb_id, tmdb_id, quality)]; [now] is the value the
    [added] column takes by default. *)
Definition queue_add (title imdb_id : option string) (tmdb_id : option Z)
    (quality : option string) (now : Z) : M (Identity.t * string) :=
  let quality := default "any" quality in
  ident ← (if negb (truthy_str title)
              || negb (truthy_str imdb_id || truthy_int tmdb_id)
           then lift (parse_what (or_str imdb_id title))
           else mret (Identity.Build title imdb_id tmdb_id));
  let title := Identity.title ident in
  let imdb_id := Identity.imdb_id ident in
  let tmdb_id := Identity.tmdb_id ident in
  rows ← query (already_queued imdb_id tmdb_id);
  match first rows with
  | None =>
      new_id ← (λ s, (inr (next_id s), s));
      session_add (QueuedMovie.Build new_id title now None None None None
                     imdb_id tmdb_id quality);;
      mret (Identity.Build title imdb_id tmdb_id, quality)
  | Some item =>
      match QueuedMovie.downloaded item with
      | Some _ => raise (QueueError (AlreadyDownloaded title) 1)
      | None => raise (QueueError (AlreadyQueued title) 1)
      end
  end.
End QueueAdd.

Definition queue_del (title imdb_id : option string) (tmdb_id : option Z)
    : M (option string) :=
  try_except
    (rows ← query (selected title imdb_id tmdb_id);
     item ← one rows;
     let title := QueuedMovie.title item in
     session_delete item;;
     mret title)
    (λ e, match e with
          | NoResultFound =>
              Some (raise (QueueError (NotFound title imdb_id tmdb_id) 0))
          | MultipleResultsFound =>
              Some (raise (QueueError (AmbiguousSelector title imdb_id tmdb_id) 0))
          | _ => None
          end).

Definition queue_forget (title imdb_id : option string) (tmdb_id : option Z)
    : M (option string) :=
  try_except
    (rows ← query (selected title imdb_id tmdb_id);
     item ← one rows;
     let title := QueuedMovie.title item in
     match QueuedMovie.downloaded item with
     | None => raise (QueueError (NotDownloaded title) 0)
     | Some _ =>
         session_update item (QueuedMovie.set_downloaded None);;
         mret title
     end)
    (λ e, match e with
          | NoResultFound =>
              Some (raise (QueueError (NotFound title imdb_id tmdb_id) 0))
          | _ => None
          end).

Definition queue_edit (quality : string) (imdb_id : option string)
    (tmdb_id : option Z) : M (option string) :=
  try_except
    (rows ← query (λ r, QueuedMovie.imdb_id r = imdb_id);
     item ← one rows;
     session_update item (QueuedMovie.set_quality quality);;
     mret (QueuedMovie.title item))
    (λ e, match e with
          | NoResultFound =>
              Some (raise (QueueError (EditNotFound imdb_id tmdb_id) 0))
          | _ => None
          end).

Definition queue_get (downloaded : bool) : M Session :=
  if negb downloaded
  then query (λ r, QueuedMovie.downloaded r = None)
  else query (λ r, QueuedMovie.downloaded r ≠ None).

(** ** The filter plugin: MovieQueue.matches *)

Inductive action : Type := accept | add | remove | forget.

#[global] Instance action_eq_dec : EqDecision action.
Proof. solve_decision. Defined.

(** The plugin configuration allowed by [schema]: an action name, or an
    object with an action and an optional quality. *)
Inductive config : Type :=
  | ConfigStr (a : action)
  | ConfigDict (a : action) (quality : option string).

(** [config.get('action')] after [config = {'action': config}]. *)
Definition config_action (c : config) : action :=
  match c with
  | ConfigStr a => a
  | ConfigDict a _ => a
  end.

(** A field of a task entry: not set, set to a value, or registered as a
    lazy field whose lookup has not run yet. *)
Inductive field (A : Type) : Type :=
  | Unset
  | Value (v : A)
  | Lazy.
Arguments Unset {A}.
Arguments Value {A} v.
Arguments Lazy {A}.

(** A task entry, reduced to the fields [matches] reads. *)
Module Entry.
Record t `{Qualities} : Type := Build {
  title : string;
  imdb_id : field string;
  tmdb_id : field Z;
  quality : option Quality
}.
Arguments Build {_} title imdb_id tmdb_id quality.
End Entry.

(** What running the lazy lookup registered for a field does to the entry
    (the imdb_lookup and tmdb_lookup plugins, outside this file). *)
Class LazyFields `{Qualities} : Type := {
  eval_imdb_id : Entry.t → Entry.t;
  eval_tmdb_id : Entry.t → Entry.t
}.

(** One element of [conditions]. *)
Inductive condition : Type :=
  | ImdbIs (v : string)   (* QueuedMovie.imdb_id == entry['imdb_id'] *)
  | TmdbIs (v : Z).       (* QueuedMovie.tmdb_id == entry['tmdb_id'] *)

Definition holds (c : condition) (r : QueuedMovie.t) : Prop :=
  match c with
  | ImdbIs v => QueuedMovie.imdb_id r = Some v
  | TmdbIs v => QueuedMovie.tmdb_id r = Some v
  end.

#[global] Instance holds_dec c r : Decision (holds c r).
Proof. destruct c; simpl; apply _. Defined.

#[global] Instance condition_eq_dec : EqDecision condition.
Proof. solve_decision. Defined.

(** [or_] applied to the list of conditions. *)
Definition or_ (conditions : list condition) (r : QueuedMovie.t) : Prop :=
  Exists (λ c, holds c r) conditions.

#[global] Instance or_dec conditions r : Decision (or_ conditions r).
Proof. unfold or_. apply _. Defined.

Section Matches.
Context `{LazyFields}.

(** [entry.get('imdb_id', eval_lazy=...)] and the same for 'tmdb_id':
    the value and the entry after the call. *)
Definition get_imdb_id (eval_lazy : bool) (entry : Entry.t)
    : option string * Entry.t :=
  match Entry.imdb_id entry with
  | Unset => (None, entry)
  | Value v => (Some v, entry)
  | Lazy =>
      if eval_lazy then
        let entry := eval_imdb_id entry in
        (match Entry.imdb_id entry with Value v => Some v | _ => None end, entry)
      else (None, entry)
  end.

Definition get_tmdb_id (eval_lazy : bool) (entry : Entry.t)
    : option Z * Entry.t :=
  match Entry.tmdb_id entry with
  | Unset => (None, entry)
  | Value v => (Some v, entry)
  | Lazy =>
      if eval_lazy then
        let entry := eval_tmdb_id entry in
        (match Entry.tmdb_id entry with Value v => Some v | _ => None end, entry)
      else (None, entry)
  end.

(** The body of [for lazy in [False, True]], started with no condition. *)
Definition phase (lazy : bool) (entry : Entry.t) : list condition * Entry.t :=
  let '(imdb_id, entry) := get_imdb_id lazy entry in
  let conditions :=
    match imdb_id with
    | Some v => if truthy_str imdb_id then [ImdbIs v] else []
    | None => []
    end in
  let '(tmdb_id, entry) :=
    get_tmdb_id (lazy && bool_decide (conditions = [])) entry in
  let conditions :=
    match tmdb_id with
    | Some v => if truthy_int tmdb_id then conditions ++ [TmdbIs v] else conditions
    | None => conditions
    end in
  (conditions, entry).

(** The loop: the second pass runs only when the first found nothing. *)
Definition conditions_of (entry : Entry.t) : list condition :=
  let '(conditions, entry) := phase false entry in
  if bool_decide (conditions = []) then fst (phase true entry) else conditions.

(** [MovieQueue.matches(task, config, entry)]; [task.session] is the
    session of the computation. *)
Definition matches (config : option config) (entry : Entry.t)
    : M (option QueuedMovie.t) :=
  match config with
  | None => mret None
  | Some config =>
      if negb (bool_decide (config_action config = accept)) then mret None
      else
        let conditions := conditions_of entry in
        if bool_decide (conditions = []) then mret None
        else
          let quality := default default_quality (Entry.quality entry) in
          pending ← query (λ r, QueuedMovie.downloaded r = None);
          match first (filter (or_ conditions) pending) with
          | Some movie =>
              if allows (QueuedMovie.quality movie) quality
              then mret (Some movie)
              else mret None
          | None => mret None
          end
  end.
End Matches.

(** ** The listing API: MovieQueueListAPI.get *)

(** Values of a response body. *)
Inductive json : Type :=
  | JStr (s : string)
  | JInt (z : Z)
  | JMovies (movies : Session)     (* [movie.to_dict() for movie in movie_items] *)
  | JNoPage (page : Z).            (* 'page %s does not exist' % page *)

(** A response: the body as its list of keys and values, and the status. *)
Definition response : Type := list (string * json) * Z.

(** [range(start, finish)] *)
Definition range (start finish : Z) : list Z :=
  (λ k : nat, start + Z.of_nat k) <$> seq 0 (Z.to_nat (finish - start)).

(** [l[i]]: a negative index counts from the end; [None] is IndexError. *)
Definition index {A} (l : list A) (i : Z) : option A :=
  let i := if decide (i < 0) then i + Z.of_nat (length l) else i in
  if decide (i < 0) then None else l !! Z.to_nat i.

(** [int(ceil(count / float(max_results)))] for [max_results ≠ 0], over
    the rationals: [Z.div] rounds down for either sign of the divisor; the
    rounding of the float quotient, which only shows for counts beyond
    2^52, is left out. *)
Definition ceil_div (count max_results : Z) : Z := - ((- count) / max_results).

(** [get]: [page], [max_results] and [downloaded] are the parsed
    arguments 'page', 'max' and 'downloaded'. *)
Definition get (page max_results : Z) (downloaded : bool) : M response :=
  movie_queue ← queue_get downloaded;
  let count := Z.of_nat (length movie_queue) in
  if decide (count = 0) then
    mret ([("success", JStr "no movies found in queue")], 200)
  else if decide (max_results = 0) then raise ZeroDivisionError
  else
    let pages := ceil_div count max_results in
    if decide (page > pages) then mret ([("error", JNoPage page)], 404)
    else
      let start := (page - 1) * max_results in
      let finish := start + max_results in
      let finish := if decide (finish > count) then count else finish in
      movie_items ← lift (from_option inr (inl IndexError)
                            (mapM (index movie_queue) (range start finish)));
      mret ([("movies", JMovies movie_items);
             ("number_of_movies", JInt count);
             ("page_number", JInt page);
             ("total_number_of_pages", JInt pages)], 200).

(** ** The add API: MovieQueueAddAPI.post *)

(** [qualities.Requirements(text)]: the message of the ValueError it
    raises on a text it cannot parse, [None] when it accepts the text. *)
Class Requirements : Type := {
  requirements_error : string → option string
}.

(** The body of a reply of [post]. *)
Inductive add_reply : Type :=
  | ReplyError (message : string + message)
      (* {'status': 'error', 'message': e.message}, of a ValueError or a QueueError *)
  | ReplyNotEnough
      (* {'status': 'error', 'message': 'Not enough parameters given. ...'} *)
  | ReplyAdded (title imdb_id : option string) (tmdb_id : option Z) (quality : string).
      (* {'message': 'Successfully added movie to movie queue', 'title': ..., ...} *)

(** The truth value of a [tmdb_id] that is the str of a request: a str
    is true unless it is empty, and the text of an integer is not. *)
Definition truthy_text (v : option Z) : bool := bool_decide (v ≠ None).

Section AddAPI.
Context `{Lookup} `{Requirements}.

(** The identity [queue_add] goes on with, the truth value of its
    [tmdb_id] left open. *)
Definition resolved_as (truthy_tmdb : option Z → bool)
    (title imdb_id : option string) (tmdb_id : option Z) : exn + Identity.t :=
  if negb (truthy_str title)
     || negb (truthy_str imdb_id || truthy_tmdb tmdb_id)
  then parse_what (or_str imdb_id title)
  else inr (Identity.Build title imdb_id tmdb_id).

(** [queue_add] with the truth value of its [tmdb_id] left open.  The
    task plugin passes an int, true unless 0 ([truthy_int], which gives
    [queue_add] above); the API passes the str of the request, true
    whenever it is there ([truthy_text]).  Either is kept at the integer
    its Integer column stores and compares. *)
Definition queue_add_as (truthy_tmdb : option Z → bool)
    (title imdb_id : option string) (tmdb_id : option Z)
    (quality : option string) (now : Z) : M (Identity.t * string) :=
  let quality := default "any" quality in
  ident ← (if negb (truthy_str title)
              || negb (truthy_str imdb_id || truthy_tmdb tmdb_id)
           then lift (parse_what (or_str imdb_id title))
           else mret (Identity.Build title imdb_id tmdb_id));
  let title := Identity.title ident in
  let imdb_id := Identity.imdb_id ident in
  let tmdb_id := Identity.tmdb_id ident in
  rows ← query (already_queued imdb_id tmdb_id);
  match first rows with
  | None =>
      new_id ← (λ s, (inr (next_id s), s));
      session_add (QueuedMovie.Build new_id title now None None None None
                     imdb_id tmdb_id quality);;
      mret (Identity.Build title imdb_id tmdb_id, quality)
  | Some item =>
      match QueuedMovie.downloaded item with
      | Some _ => raise (QueueError (AlreadyDownloaded title) 1)
      | None => raise (QueueError (AlreadyQueued title) 1)
      end
  end.

(** [post]: the arguments are the parsed 'title', 'imdb_id', 'tmdb_id'
    and 'quality' (which the parser defaults to 'any').  The parser
    reads 'tmdb_id' as a str: [tmdb_id] is that text at the integer it
    writes, and counts as true whenever it is given, "0" included (a
    text that writes no integer is outside the model). *)
Definition post (title imdb_id : option string) (tmdb_id : option Z)
    (quality : string) (now : Z) : M (add_reply * Z) :=
  match requirements_error quality with
  | Some message => mret (ReplyError (inl message), 400)
  | None =>
      outcome ← try_except
        (movie ← queue_add_as truthy_text title imdb_id tmdb_id (Some quality) now;
         mret (inr movie))
        (λ e, match e with
              | QueueError message _ =>
                  Some (mret (inl (ReplyError (inr message), 400)))
              | AttributeError => Some (mret (inl (ReplyNotEnough, 500)))
              | _ => None
              end);
      match outcome with
      | inl reply => mret reply
      | inr (movie, quality) =>
          mret (ReplyAdded (Identity.title movie) (Identity.imdb_id movie)
                  (Identity.tmdb_id movie) quality, 200)
      end
  end.
End AddAPI.

(** ** The output phase: MovieQueue.on_task_output *)

(** What [on_task_output] asks of a quality: its truth value and its
    [name]. *)
Class QualityNames `{Qualities} : Type := {
  quality_bool : Quality → bool;
  quality_name : Quality → string
}.

(** An accepted entry, reduced to the fields [on_task_output] reads. *)
Module Accepted.
Record t `{Qualities} : Type := Build {
  title : string;
  imdb_id : field string;
  tmdb_id : field Z;
  imdb_name : field string;
  tmdb_name : field string;
  movie_name : field string;
  quality_req : option string;
  quality : option Quality
}.
Arguments Build {_} title imdb_id tmdb_id imdb_name tmdb_name movie_name
  quality_req quality.
End Accepted.

(** What running the lazy lookup of an id does to an accepted entry. *)
Class LazyAccepted `{Qualities} : Type := {
  lookup_imdb_id : Accepted.t → Accepted.t;
  lookup_tmdb_id : Accepted.t → Accepted.t
}.

(** What leaves [on_task_output]: an exception of the queue functions, or
    the ValueError of [qualities.Requirements]. *)
Inductive task_exn : Type :=
  | Raised (e : exn)
  | ValueError (message : string).

(** [entry.get(key, eval_lazy=False)] *)
Definition get_set {A} (f : field A) : option A :=
  match f with
  | Value v => Some v
  | _ => None
  end.

(** [config.get('quality', 'any')] *)
Definition config_quality (c : config) : string :=
  match c with
  | ConfigStr _ => "any"
  | ConfigDict _ quality => default "any" quality
  end.

Section Output.
Context `{LazyAccepted} `{!QualityNames} `{Lookup} `{Requirements}.

Definition accepted_imdb_id (eval_lazy : bool) (entry : Accepted.t)
    : option string * Accepted.t :=
  match Accepted.imdb_id entry with
  | Unset => (None, entry)
  | Value v => (Some v, entry)
  | Lazy =>
      if eval_lazy then
        let entry := lookup_imdb_id entry in
        (get_set (Accepted.imdb_id entry), entry)
      else (None, entry)
  end.

Definition accepted_tmdb_id (eval_lazy : bool) (entry : Accepted.t)
    : option Z * Accepted.t :=
  match Accepted.tmdb_id entry with
  | Unset => (None, entry)
  | Value v => (Some v, entry)
  | Lazy =>
      if eval_lazy then
        let entry := lookup_tmdb_id entry in
        (get_set (Accepted.tmdb_id entry), entry)
      else (None, entry)
  end.

(** The body of [for lazy in [False, True]]: the 'imdb_id' and 'tmdb_id'
    keys of [kwargs] ([None] for a key that is not set). *)
Definition kwargs_ids (lazy : bool) (entry : Accepted.t)
    : option string * option Z * Accepted.t :=
  let '(imdb_id, entry) := accepted_imdb_id lazy entry in
  let '(tmdb_id, entry) := accepted_tmdb_id lazy entry in
  (if truthy_str imdb_id then imdb_id else None,
   if truthy_int tmdb_id then tmdb_id else None, entry).

(** The loop, and [kwargs['title']] read off the entry it leaves. *)
Definition kwargs_of (entry : Accepted.t)
    : option string * option Z * option string :=
  let '(imdb_id, tmdb_id, entry) :=
    let '(imdb_id, tmdb_id, entry) := kwargs_ids false entry in
    if bool_decide (imdb_id = None ∧ tmdb_id = None)
    then kwargs_ids true entry
    else (imdb_id, tmdb_id, entry) in
  (imdb_id, tmdb_id,
   or_str (or_str (get_set (Accepted.imdb_name entry))
                  (get_set (Accepted.tmdb_name entry)))
          (get_set (Accepted.movie_name entry))).

(** The text [kwargs['quality']] is built from under the add action. *)
Definition add_quality (c : config) (entry : Accepted.t) : string :=
  if truthy_str (Accepted.quality_req entry)
  then default "" (Accepted.quality_req entry)
  else match Accepted.quality entry with
       | Some q => if quality_bool q then quality_name q else config_quality c
       | None => config_quality c
       end.

(** One turn of [for entry in task.accepted]: the message the entry is
    failed with, if it is; [now] is the time of the turn. *)
Definition output_entry (c : config) (entry : Accepted.t) (now : Z)
    (s : Session) : (task_exn + option message) * Session :=
  let '(imdb_id, tmdb_id, title) := kwargs_of entry in
  if bool_decide (imdb_id = None ∧ tmdb_id = None) then (inr None, s)
  else
    let call : (task_exn + M unit) :=
      match config_action c with
      | add =>
          let quality := add_quality c entry in
          match requirements_error quality with
          | Some message => inl (ValueError message)
          | None => inr (queue_add title imdb_id tmdb_id (Some quality) now;; mret ())
          end
      | remove => inr (queue_del title imdb_id tmdb_id;; mret ())
      | forget => inr (queue_forget title imdb_id tmdb_id;; mret ())
      | accept => inr (mret ())
      end in
    match call with
    | inl e => (inl e, s)
    | inr call =>
        match call s with
        | (inr _, s') => (inr None, s')
        | (inl (QueueError message errno), s') =>
            (inr (if bool_decide (errno ≠ 1) then Some message else None), s')
        | (inl e, s') => (inl (Raised e), s')
        end
    end.

(** [on_task_output(task, config)]: [accepted] is [task.accepted], each
    entry with the time of its turn; the result lists, entry by entry,
    the message of [entry.fail]. *)
Fixpoint on_task_output_loop (c : config) (accepted : list (Accepted.t * Z))
    (s : Session) : (task_exn + list (option message)) * Session :=
  match accepted with
  | [] => (inr [], s)
  | (entry, now) :: accepted =>
      match output_entry c entry now s with
      | (inl e, s') => (inl e, s')
      | (inr failed, s') =>
          match on_task_output_loop c accepted s' with
          | (inl e, s'') => (inl e, s'')
          | (inr rest, s'') => (inr (failed :: rest), s'')
          end
      end
  end.

Definition on_task_output (config : option config)
    (accepted : list (Accepted.t * Z)) (s : Session)
    : (task_exn + list (option message)) * Session :=
  match config with
  | None => (inr [], s)
  | Some c => on_task_output_loop c accepted s
  end.
End Output.

(** ** Properties of a queue *)

(** No two rows share an imdb id, and no two a tmdb id (rows without the
    id aside). *)
Definition dedup (s : Session) : Prop :=
  NoDup (omap QueuedMovie.imdb_id s) ∧ NoDup (omap QueuedMovie.tmdb_id s).

#[global] Instance dedup_dec s : Decision (dedup s).
Proof. unfold dedup. apply _. Defined.



(** ** Concrete collaborators and sessions for the examples *)

(** Modelled from the spec: the quality collaborator
    (flexget.utils.qualities is not among the sources).  A quality is its
    vertical resolution, 0 when unknown; "any" allows every quality and
    "720p+" the qualities of at least 720p. *)
#[local] Instance example_qualities : Qualities := {|
  Quality := Z;
  default_quality := 0;
  allows req q :=
    if decide (req = "any") then true
    else if decide (req = "720p+") then bool_decide (720 ≤ q)%Z
    else if decide (req = "1080p") then bool_decide (q = 1080)
    else false
|}.

(** Lazy lookups that find nothing. *)
#[local] Instance example_lazy : LazyFields := {|
  eval_imdb_id e := Entry.Build (Entry.title e) Unset (Entry.tmdb_id e) (Entry.quality e);
  eval_tmdb_id e := Entry.Build (Entry.title e) (Entry.imdb_id e) Unset (Entry.quality e)
|}.

(** A resolver that knows one movie. *)
#[local] Instance example_lookup : Lookup := {|
  extract_id what :=
    if String.prefix "tt" what then Some what else None;
  lookup e :=
    if decide (SearchEntry.title e = "Inception"
               ∨ SearchEntry.imdb_id e = Some "tt1375666"
               ∨ SearchEntry.tmdb_id e = Some "27205")
    then Some (Identity.Build (Some "Inception") (Some "tt1375666") (Some 27205))
    else None
|}.

Definition row (id : Z) (title : string) (downloaded : option Z)
    (imdb_id : option string) (tmdb_id : option Z) (quality : string)
    : QueuedMovie.t :=
  QueuedMovie.Build id (Some title) 100 downloaded
    (if downloaded is Some _ then Some (title +:+ ".mkv") else None)
    (if downloaded is Some _ then Some "http://example.org/a" else None)
    (if downloaded is Some _ then Some "http://example.org/b" else None)
    imdb_id tmdb_id quality.

Definition inception_wanted : Session :=
  [row 1 "Inception" None (Some "tt1375666") (Some 27205) "any"].

Definition inception_downloaded : Session :=
  [row 1 "Inception" (Some 50) (Some "tt1375666") (Some 27205) "any"].

(** Two rows for one movie: the first, known by its imdb id, is
    downloaded; the second, known by its tmdb id, is not. *)
Definition mixed_rows : Session :=
  [row 1 "Inception" (Some 50) (Some "tt1375666") None "any";
   QueuedMovie.Build 2 (Some "Inception") 100 None None None None
     None (Some 27205) "any"].

(** Two movies of the same title, both downloaded. *)
Definition two_heats : Session :=
  [row 1 "Heat" (Some 50) (Some "tt0113277") (Some 949) "any";
   row 2 "Heat" (Some 60) (Some "tt0068688") None "720p+"].

(** Two rows for one movie, neither downloaded: one known by its imdb id
    and wanted in 1080p, one known by its tmdb id and wanted in 720p+. *)
Definition two_pending : Session :=
  [QueuedMovie.Build 1 (Some "Inception") 100 None None None None
     (Some "tt1375666") None "1080p";
   QueuedMovie.Build 2 (Some "Inception") 100 None None None None
     None (Some 27205) "720p+"].

(** A 720p candidate with both ids set. *)
Definition candidate_720p : Entry.t :=
  Entry.Build "Inception.2010.720p" (Value "tt1375666") (Value 27205) (Some 720).

(** Five movies to list. *)
Definition five_movies : Session :=
  (λ i, row i "m" None None (Some i) "any") <$> [1; 2; 3; 4; 5].

(** A resolver that finds nothing. *)
Definition lookup_nothing : Lookup := {|
  extract_id what := None;
  lookup e := None
|}.

(** Lazy lookups of a candidate that find the imdb id, and that find
    both ids. *)
Definition lazy_imdb_found : LazyFields := {|
  eval_imdb_id e :=
    Entry.Build (Entry.title e) (Value "tt1375666") (Entry.tmdb_id e) (Entry.quality e);
  eval_tmdb_id e :=
    Entry.Build (Entry.title e) (Entry.imdb_id e) Unset (Entry.quality e)
|}.

Definition lazy_both_found : LazyFields := {|
  eval_imdb_id e :=
    Entry.Build (Entry.title e) (Value "tt1375666") (Entry.tmdb_id e) (Entry.quality e);
  eval_tmdb_id e :=
    Entry.Build (Entry.title e) (Entry.imdb_id e) (Value 27205) (Entry.quality e)
|}.

(** A candidate whose two ids wait for their lazy lookup. *)
Definition candidate_lazy : Entry.t :=
  Entry.Build "Inception.2010" Lazy Lazy None.

(** Requirement texts that parse, for the examples. *)
#[local] Instance example_requirements : Requirements := {|
  requirements_error text :=
    if decide (text = "any" ∨ text = "720p+" ∨ text = "1080p" ∨ text = "720p")
    then None
    else Some ("invalid quality " +:+ text)
|}.

#[local] Instance example_quality_names : QualityNames := {|
  quality_bool q := negb (bool_decide (q = 0));
  quality_name q :=
    if decide (q = 720) then "720p"
    else if decide (q = 1080) then "1080p"
    else "unknown"
|}.

(** Lazy lookups of an accepted entry that find nothing. *)
#[local] Instance example_lazy_accepted : LazyAccepted := {|
  lookup_imdb_id e :=
    Accepted.Build (Accepted.title e) Unset (Accepted.tmdb_id e)
      (Accepted.imdb_name e) (Accepted.tmdb_name e) (Accepted.movie_name e)
      (Accepted.quality_req e) (Accepted.quality e);
  lookup_tmdb_id e :=
    Accepted.Build (Accepted.title e) (Accepted.imdb_id e) Unset
      (Accepted.imdb_name e) (Accepted.tmdb_name e) (Accepted.movie_name e)
      (Accepted.quality_req e) (Accepted.quality e)
|}.

(** Accepted entries: one that knows its movie, one that knows nothing,
    one with a tmdb id only. *)
Definition accepted_inception : Accepted.t :=
  Accepted.Build "Inception.2010.720p" (Value "tt1375666") (Value 27205)
    (Value "Inception") Unset Unset None (Some 720).

Definition accepted_unknown : Accepted.t :=
  Accepted.Build "Holiday.Video" Lazy Lazy Unset Unset Unset None None.

Definition accepted_tmdb_only : Accepted.t :=
  Accepted.Build "Inception.2010" Unset (Value 27205) Lazy Unset Unset None None.

(** ** Running computations *)

Ltac run :=
  unfold mbind, M_bind, mret, M_ret, raise, lift, query, try_except, first,
    session_add, session_delete, session_update; simpl.

Ltac by_computation :=
  lazymatch goal with
  | |- ?P =>
      let d := constr:(_ : Decision P) in
      apply (@bool_decide_unpack P d); vm_compute; exact I
  end.

Lemma filter_nil_Forall {A} (P : A → Prop) `{∀ x, Decision (P x)} (l : list A) :
  filter P l = [] ↔ Forall (λ x, ¬ P x) l.
Proof.
  induction l as [|x l IH]; [done|].
  rewrite filter_cons. destruct (decide (P x)) as [HP|HP].
  - split; [done|]. intros HF. by inversion HF.
  - rewrite IH. split; [by constructor|]. intros HF. by inversion HF.
Qed.

Lemma head_filter_elem {A} (P : A → Prop) `{∀ x, Decision (P x)} (l : list A) x :
  x ∈ l → P x → ∃ y, head (filter P l) = Some y ∧ y ∈ l ∧ P y.
Proof.
  intros Hin HP.
  destruct (filter P l) as [|y k] eqn:E.
  - exfalso. by eapply filter_nil_not_elem_of.
  - exists y. split; [done|].
    assert (y ∈ filter P l) as Hy by (rewrite E; left).
    apply list_elem_of_filter in Hy. tauto.
Qed.

(** ** Rows and their primary key *)

Lemma wf_middle pre item post :
  wf (pre ++ item :: post) →
  Forall (λ r, QueuedMovie.id r ≠ QueuedMovie.id item) pre
  ∧ Forall (λ r, QueuedMovie.id r ≠ QueuedMovie.id item) post.
Proof.
  unfold wf. rewrite fmap_app, fmap_cons.
  intros Hnd. apply NoDup_app in Hnd as (_ & Hpre & Hpost).
  apply NoDup_cons in Hpost as [Hpost _].
  split; apply Forall_forall; intros r Hr Heq.
  - apply (Hpre (QueuedMovie.id r)).
    + by apply list_elem_of_fmap_2.
    + rewrite Heq. left.
  - apply Hpost. rewrite <- Heq. by apply list_elem_of_fmap_2.
Qed.

Lemma filter_all {A} (P : A → Prop) `{∀ x, Decision (P x)} (l : list A) :
  Forall P l → filter P l = l.
Proof.
  induction 1 as [|x l HP _ IH]; [done|].
  by rewrite filter_cons_True, IH.
Qed.

Lemma delete_by_id pre item post :
  wf (pre ++ item :: post) →
  filter (λ r, QueuedMovie.id r ≠ QueuedMovie.id item) (pre ++ item :: post)
  = pre ++ post.
Proof.
  intros [Hpre Hpost]%wf_middle.
  rewrite filter_app, filter_cons_False by (intros Hne; by apply Hne).
  by rewrite !filter_all.
Qed.

Lemma update_by_id f pre item post :
  wf (pre ++ item :: post) →
  (λ r, if decide (QueuedMovie.id r = QueuedMovie.id item) then f r else r)
    <$> (pre ++ item :: post)
  = pre ++ f item :: post.
Proof.
  intros [Hpre Hpost]%wf_middle.
  assert (∀ l, Forall (λ r, QueuedMovie.id r ≠ QueuedMovie.id item) l →
    (λ r, if decide (QueuedMovie.id r = QueuedMovie.id item) then f r else r) <$> l = l)
    as Hid.
  { induction 1 as [|x l Hx _ IH]; [done|].
    rewrite fmap_cons, IH. by rewrite decide_False. }
  rewrite fmap_app, fmap_cons, !Hid by done.
  by rewrite decide_True.
Qed.

Lemma next_id_fresh s r : r ∈ s → QueuedMovie.id r < next_id s.
Proof.
  unfold next_id. induction 1 as [r s|r r' s _ IH]; rewrite fmap_cons; simpl; lia.
Qed.

Lemma wf_filter (P : QueuedMovie.t → Prop) `{∀ r, Decision (P r)} s :
  wf s → wf (filter P s).
Proof.
  unfold wf. intros Hwf. eapply sublist_NoDup; [done|].
  apply fmap_sublist, sublist_filter.
Qed.

Lemma wf_update (f : QueuedMovie.t → QueuedMovie.t) (P : QueuedMovie.t → Prop)
    `{∀ r, Decision (P r)} s :
  (∀ r, QueuedMovie.id (f r) = QueuedMovie.id r) →
  wf s → wf ((λ r, if decide (P r) then f r else r) <$> s).
Proof.
  unfold wf. intros Hf Hwf. rewrite <- list_fmap_compose.
  erewrite list_fmap_ext; [done|].
  intros i r _. simpl. by case_decide.
Qed.

Lemma filter_singleton_split {A} (P : A → Prop) `{∀ x, Decision (P x)}
    (l : list A) x :
  filter P l = [x] →
  ∃ pre post, l = pre ++ x :: post ∧ P x
    ∧ Forall (λ y, ¬ P y) pre ∧ Forall (λ y, ¬ P y) post.
Proof.
  induction l as [|y l IH]; [done|].
  rewrite filter_cons. destruct (decide (P y)) as [Hy|Hy].
  - intros [= -> Hnil]. exists [], l. repeat split; try done.
    by apply (filter_nil_Forall P l).
  - intros (pre & post & -> & Hx & Hpre & Hpost)%IH.
    exists (y :: pre), post. repeat split; try done. by constructor.
Qed.

(** ** queue_add *)

Section QueueAddFacts.
Context `{Lookup}.

Lemma queue_add_run title imdb_id tmdb_id quality now s :
  queue_add title imdb_id tmdb_id quality now s =
  match resolved title imdb_id tmdb_id with
  | inl e => (inl e, s)
  | inr ident =>
      let title := Identity.title ident in
      let imdb_id := Identity.imdb_id ident in
      let tmdb_id := Identity.tmdb_id ident in
      match head (filter (already_queued imdb_id tmdb_id) s) with
      | None =>
          (inr (ident, default "any" quality),
           s ++ [QueuedMovie.Build (next_id s) title now None None None None
                   imdb_id tmdb_id (default "any" quality)])
      | Some item =>
          (inl (QueueError
                  match QueuedMovie.downloaded item with
                  | Some _ => AlreadyDownloaded title
                  | None => AlreadyQueued title
                  end 1), s)
      end
  end.
Proof.
  unfold queue_add, resolved. run.
  destruct (negb (truthy_str title) || negb (truthy_str imdb_id || truthy_int tmdb_id)).
  - destruct (parse_what (or_str imdb_id title)) as [e|[t i m]]; [done|]. simpl.
    destruct (head _) as [item|]; [|done].
    by destruct (QueuedMovie.downloaded item).
  - simpl. destruct (head _) as [item|]; [|done].
    by destruct (QueuedMovie.downloaded item).
Qed.

(** C1, as the code has it: the duplicate check of [queue_add] runs over
    every row, whatever its [downloaded] column.  When the resolved ids
    match no row at all, the add succeeds and appends one row that is
    not downloaded; a row that matches makes the add fail, downloaded or
    not. *)
Theorem queue_add_checks_every_row title imdb_id tmdb_id quality now s ident :
  resolved title imdb_id tmdb_id = inr ident →
  (Forall (λ r, ¬ already_queued (Identity.imdb_id ident) (Identity.tmdb_id ident) r) s →
   queue_add title imdb_id tmdb_id quality now s =
     (inr (ident, default "any" quality),
      s ++ [QueuedMovie.Build (next_id s) (Identity.title ident) now None
              None None None (Identity.imdb_id ident) (Identity.tmdb_id ident)
              (default "any" quality)]))
  ∧ (∀ r, r ∈ s →
       already_queued (Identity.imdb_id ident) (Identity.tmdb_id ident) r →
       ∃ e, queue_add title imdb_id tmdb_id quality now s = (inl e, s)).
Proof.
  intros Hres. rewrite queue_add_run, Hres. simpl. split.
  - intros Hnone. apply (filter_nil_Forall _ s) in Hnone. by rewrite Hnone.
  - intros r Hin Hr.
    destruct (head_filter_elem _ s r Hin Hr) as (item & -> & _). eauto.
Qed.

(** C2, as the code has it: when the resolved identity matches rows on
    either id, the first of them in the queue decides: the add raises the
    QueueError "already in the queue" when that first row is not
    downloaded and "already been queued and downloaded" when it is, both
    with errno 1, whatever the other matching rows are; the session is
    left as it was and no row is created. *)
Theorem queue_add_conflict title imdb_id tmdb_id quality now s ident r :
  resolved title imdb_id tmdb_id = inr ident →
  r ∈ s →
  already_queued (Identity.imdb_id ident) (Identity.tmdb_id ident) r →
  ∃ item,
    first (filter (already_queued (Identity.imdb_id ident) (Identity.tmdb_id ident)) s)
      = Some item
    ∧ item ∈ s
    ∧ already_queued (Identity.imdb_id ident) (Identity.tmdb_id ident) item
    ∧ queue_add title imdb_id tmdb_id quality now s =
        (inl (QueueError
                match QueuedMovie.downloaded item with
                | None => AlreadyQueued (Identity.title ident)
                | Some _ => AlreadyDownloaded (Identity.title ident)
                end 1), s).
Proof.
  intros Hres Hin Hr.
  destruct (head_filter_elem _ s r Hin Hr) as (item & Hhead & Hitem & HP).
  exists item. repeat split; try done.
  rewrite queue_add_run, Hres. simpl. rewrite Hhead.
  by destruct (QueuedMovie.downloaded item).
Qed.

(** C4: a call that supplies only [tmdb_id] hands [imdb_id or title],
    that is [None], to [parse_what]; the AttributeError of
    [what.startswith] ends the call before any lookup or insert. *)
Theorem queue_add_tmdb_id_only tmdb_id quality now s :
  resolved None None tmdb_id = inl AttributeError
  ∧ queue_add None None tmdb_id quality now s = (inl AttributeError, s).
Proof. split; [done|]. by rewrite queue_add_run. Qed.

(** [queue_add] keeps the primary key unique. *)
Lemma queue_add_wf title imdb_id tmdb_id quality now s :
  wf s → wf (snd (queue_add title imdb_id tmdb_id quality now s)).
Proof.
  intros Hwf. rewrite queue_add_run.
  destruct (resolved title imdb_id tmdb_id) as [e|ident]; [done|]. simpl.
  destruct (head _) as [item|]; [done|]. simpl.
  unfold wf. rewrite fmap_app. apply NoDup_app. split; [done|].
  split; [|apply NoDup_singleton].
  intros i (r & -> & Hr)%list_elem_of_fmap_1 Heq%list_elem_of_singleton.
  apply next_id_fresh in Hr. simpl in Heq. lia.
Qed.

(** An incomplete identity with a title or an imdb id does reach the
    resolver, with [imdb_id or title] as the search string. *)
Lemma resolved_incomplete title imdb_id tmdb_id :
  truthy_str title = false ∨ (truthy_str imdb_id = false ∧ truthy_int tmdb_id = false) →
  resolved title imdb_id tmdb_id = parse_what (or_str imdb_id title).
Proof.
  unfold resolved. intros [->|[-> ->]]; simpl; [done|].
  by rewrite orb_true_r.
Qed.
End QueueAddFacts.

(** ** queue_del *)

Lemma queue_del_run title imdb_id tmdb_id s :
  queue_del title imdb_id tmdb_id s =
  match filter (selected title imdb_id tmdb_id) s with
  | [] => (inl (QueueError (NotFound title imdb_id tmdb_id) 0), s)
  | [item] =>
      (inr (QueuedMovie.title item),
       filter (λ r, QueuedMovie.id r ≠ QueuedMovie.id item) s)
  | _ => (inl (QueueError (AmbiguousSelector title imdb_id tmdb_id) 0), s)
  end.
Proof.
  unfold queue_del, one. run.
  by destruct (filter _ s) as [|item [|item' rows]].
Qed.

(** C7: the rows [queue_del] looks at are chosen by the first truthy one
    of [imdb_id], [tmdb_id], [title]; with none of them selected it raises
    the "not found" QueueError, with several the "matches multiple
    results" one, both leaving the session alone; with exactly one it
    removes that row and nothing else and returns its title. *)
Theorem queue_del_contract title imdb_id tmdb_id s :
  wf s →
  (∀ r, selected title imdb_id tmdb_id r ↔
        if truthy_str imdb_id then QueuedMovie.imdb_id r = imdb_id
        else if truthy_int tmdb_id then QueuedMovie.tmdb_id r = tmdb_id
        else if truthy_str title then QueuedMovie.title r = title
        else True)
  ∧ (filter (selected title imdb_id tmdb_id) s = [] →
     queue_del title imdb_id tmdb_id s
     = (inl (QueueError (NotFound title imdb_id tmdb_id) 0), s))
  ∧ ((1 < length (filter (selected title imdb_id tmdb_id) s))%nat →
     queue_del title imdb_id tmdb_id s
     = (inl (QueueError (AmbiguousSelector title imdb_id tmdb_id) 0), s))
  ∧ (∀ item, filter (selected title imdb_id tmdb_id) s = [item] →
     ∃ pre post,
       s = pre ++ item :: post
       ∧ Forall (λ r, ¬ selected title imdb_id tmdb_id r) (pre ++ post)
       ∧ queue_del title imdb_id tmdb_id s
         = (inr (QueuedMovie.title item), pre ++ post)).
Proof.
  intros Hwf. split; [done|]. rewrite queue_del_run.
  split; [by intros ->|]. split.
  - destruct (filter _ s) as [|item [|item' rows]]; simpl; [lia|lia|done].
  - intros item Hone. rewrite Hone.
    destruct (filter_singleton_split _ s item Hone)
      as (pre & post & -> & _ & Hpre & Hpost).
    exists pre, post. split; [done|]. split; [by apply Forall_app|].
    by rewrite delete_by_id.
Qed.

(** ** queue_forget *)

Lemma queue_forget_run title imdb_id tmdb_id s :
  queue_forget title imdb_id tmdb_id s =
  match filter (selected title imdb_id tmdb_id) s with
  | [] => (inl (QueueError (NotFound title imdb_id tmdb_id) 0), s)
  | [item] =>
      match QueuedMovie.downloaded item with
      | None => (inl (QueueError (NotDownloaded (QueuedMovie.title item)) 0), s)
      | Some _ =>
          (inr (QueuedMovie.title item),
           (λ r, if decide (QueuedMovie.id r = QueuedMovie.id item)
                 then QueuedMovie.set_downloaded None r else r) <$> s)
      end
  | _ => (inl MultipleResultsFound, s)
  end.
Proof.
  unfold queue_forget, one. run.
  destruct (filter _ s) as [|item [|item' rows]]; try done.
  by destruct (QueuedMovie.downloaded item).
Qed.

(** C5, as the code has it: a successful [queue_forget] touches one row,
    which was downloaded; it sets the row's [downloaded] to [None] and
    leaves every other column as it was: title, ids and quality, and also
    the [entry_title], [entry_url] and [entry_original_url] provenance. *)
Theorem queue_forget_frame title imdb_id tmdb_id s forgotten s' :
  wf s →
  queue_forget title imdb_id tmdb_id s = (inr forgotten, s') →
  ∃ pre item item' post,
    s = pre ++ item :: post
    ∧ s' = pre ++ item' :: post
    ∧ selected title imdb_id tmdb_id item
    ∧ QueuedMovie.downloaded item ≠ None
    ∧ forgotten = QueuedMovie.title item
    ∧ QueuedMovie.downloaded item' = None
    ∧ QueuedMovie.title item' = QueuedMovie.title item
    ∧ QueuedMovie.imdb_id item' = QueuedMovie.imdb_id item
    ∧ QueuedMovie.tmdb_id item' = QueuedMovie.tmdb_id item
    ∧ QueuedMovie.quality item' = QueuedMovie.quality item
    ∧ QueuedMovie.entry_title item' = QueuedMovie.entry_title item
    ∧ QueuedMovie.entry_url item' = QueuedMovie.entry_url item
    ∧ QueuedMovie.entry_original_url item' = QueuedMovie.entry_original_url item
    ∧ QueuedMovie.id item' = QueuedMovie.id item
    ∧ QueuedMovie.added item' = QueuedMovie.added item.
Proof.
  intros Hwf. rewrite queue_forget_run.
  destruct (filter _ s) as [|item [|item' rows]] eqn:Hone; try done.
  destruct (QueuedMovie.downloaded item) as [t|] eqn:Hd; [|done].
  intros [= <- <-].
  destruct (filter_singleton_split _ s item Hone)
    as (pre & post & -> & Hsel & _ & _).
  exists pre, item, (QueuedMovie.set_downloaded None item), post.
  rewrite update_by_id by done. rewrite Hd. by repeat split.
Qed.

(** A selector that picks exactly one downloaded row makes
    [queue_forget] succeed. *)
Lemma queue_forget_succeeds title imdb_id tmdb_id s item :
  filter (selected title imdb_id tmdb_id) s = [item] →
  QueuedMovie.downloaded item ≠ None →
  ∃ s', queue_forget title imdb_id tmdb_id s = (inr (QueuedMovie.title item), s').
Proof.
  intros Hone Hd. rewrite queue_forget_run, Hone.
  destruct (QueuedMovie.downloaded item); [eauto|done].
Qed.

(** C6: what [queue_forget] does in each case.  No selected row gives the
    "not found" QueueError and a single selected row that is not
    downloaded the "not marked as downloaded" one, the session unchanged
    in both.  Several selected rows are not handled: sqlalchemy's
    MultipleResultsFound leaves the function as it is, where [queue_del]
    turns it into a QueueError; so for two downloaded rows titled "Heat". *)
Theorem queue_forget_errors :
  (∀ title imdb_id tmdb_id s,
     match filter (selected title imdb_id tmdb_id) s with
     | [] => queue_forget title imdb_id tmdb_id s
             = (inl (QueueError (NotFound title imdb_id tmdb_id) 0), s)
     | [item] =>
         QueuedMovie.downloaded item = None →
         queue_forget title imdb_id tmdb_id s
         = (inl (QueueError (NotDownloaded (QueuedMovie.title item)) 0), s)
     | _ => queue_forget title imdb_id tmdb_id s = (inl MultipleResultsFound, s)
     end)
  ∧ queue_forget (Some "Heat") None None two_heats
    = (inl MultipleResultsFound, two_heats)
  ∧ queue_del (Some "Heat") None None two_heats
    = (inl (QueueError (AmbiguousSelector (Some "Heat") None None) 0), two_heats).
Proof.
  split; [|done].
  intros title imdb_id tmdb_id s. rewrite queue_forget_run.
  destruct (filter _ s) as [|item [|item' rows]]; try done.
  by intros ->.
Qed.

Lemma queue_del_wf title imdb_id tmdb_id s :
  wf s → wf (snd (queue_del title imdb_id tmdb_id s)).
Proof.
  intros Hwf. rewrite queue_del_run.
  destruct (filter _ s) as [|item [|item' rows]]; try done.
  by apply wf_filter.
Qed.

Lemma queue_forget_wf title imdb_id tmdb_id s :
  wf s → wf (snd (queue_forget title imdb_id tmdb_id s)).
Proof.
  intros Hwf. rewrite queue_forget_run.
  destruct (filter _ s) as [|item [|item' rows]]; try done.
  destruct (QueuedMovie.downloaded item); [|done].
  by apply wf_update.
Qed.

(** ** queue_edit *)

Lemma queue_edit_run quality imdb_id tmdb_id s :
  queue_edit quality imdb_id tmdb_id s =
  match filter (λ r, QueuedMovie.imdb_id r = imdb_id) s with
  | [] => (inl (QueueError (EditNotFound imdb_id tmdb_id) 0), s)
  | [item] =>
      (inr (QueuedMovie.title item),
       (λ r, if decide (QueuedMovie.id r = QueuedMovie.id item)
             then QueuedMovie.set_quality quality r else r) <$> s)
  | _ => (inl MultipleResultsFound, s)
  end.
Proof.
  unfold queue_edit, one. run.
  by destruct (filter _ s) as [|item [|item' rows]].
Qed.

(** C8: [queue_edit] filters on [imdb_id] alone and never reads
    [tmdb_id].  Given only the tmdb id of a queued movie it reports
    "not found"; and since the filter for a missing [imdb_id] is
    [imdb_id IS NULL], it edits a row without imdb id whatever tmdb id was
    asked for. *)
Theorem queue_edit_ignores_tmdb_id :
  queue_edit "720p+" None (Some 27205) inception_wanted
  = (inl (QueueError (EditNotFound None (Some 27205)) 0), inception_wanted)
  ∧ queue_edit "1080p" None (Some 27205) [row 1 "Heat" None None (Some 949) "any"]
    = (inr (Some "Heat"), [row 1 "Heat" None None (Some 949) "1080p"])
  ∧ (∀ quality imdb_id tmdb_id tmdb_id' s,
       snd (queue_edit quality imdb_id tmdb_id s)
       = snd (queue_edit quality imdb_id tmdb_id' s)).
Proof.
  split; [done|]. split; [done|].
  intros. rewrite !queue_edit_run.
  by destruct (filter _ s) as [|item [|item' rows]].
Qed.

(** ** matches *)

Lemma head_filter_split {A} (P : A → Prop) `{∀ x, Decision (P x)} (l : list A) x :
  head (filter P l) = Some x ↔
  ∃ pre post, l = pre ++ x :: post ∧ Forall (λ y, ¬ P y) pre ∧ P x.
Proof.
  split.
  - induction l as [|y l IH]; [done|].
    rewrite filter_cons. destruct (decide (P y)) as [Hy|Hy].
    + intros [= ->]. by exists [], l.
    + intros (pre & post & -> & Hpre & Hx)%IH.
      exists (y :: pre), post. repeat split; try done. by constructor.
  - intros (pre & post & -> & Hpre & Hx).
    rewrite filter_app, filter_cons_True by done.
    apply (filter_nil_Forall P pre) in Hpre. by rewrite Hpre.
Qed.

Section MatchesFacts.
Context `{LazyFields}.

Lemma matches_run config entry s :
  config_action config = accept →
  conditions_of entry ≠ [] →
  matches (Some config) entry s =
  (inr match head (filter (λ r, or_ (conditions_of entry) r
                                ∧ QueuedMovie.downloaded r = None) s) with
       | Some movie =>
           if allows (QueuedMovie.quality movie)
                (default default_quality (Entry.quality entry))
           then Some movie else None
       | None => None
       end, s).
Proof.
  intros Hacc Hcond. unfold matches. run.
  rewrite bool_decide_true by done. simpl.
  rewrite bool_decide_false by done.
  rewrite list_filter_filter.
  destruct (head _) as [movie|]; [|done].
  by destruct (allows _ _).
Qed.

(** C3, as the code has it: under the accept action and for a candidate
    with at least one id found, [matches] returns a movie exactly when
    that movie is the first row of the queue that is not downloaded and
    agrees with the candidate on the imdb id or on the tmdb id, and its
    quality requirement allows the candidate's quality, the default
    quality standing in for an unknown one.  Rows after that first one
    are not tried.  The session is only read and nothing is raised. *)
Theorem matches_first_pending config entry s movie :
  config_action config = accept →
  conditions_of entry ≠ [] →
  snd (matches (Some config) entry s) = s
  ∧ (∃ found, fst (matches (Some config) entry s) = inr found)
  ∧ (fst (matches (Some config) entry s) = inr (Some movie) ↔
     ∃ pre post,
       s = pre ++ movie :: post
       ∧ Forall (λ r, ¬ (or_ (conditions_of entry) r
                         ∧ QueuedMovie.downloaded r = None)) pre
       ∧ or_ (conditions_of entry) movie
       ∧ QueuedMovie.downloaded movie = None
       ∧ allows (QueuedMovie.quality movie)
           (default default_quality (Entry.quality entry)) = true).
Proof.
  intros Hacc Hcond. rewrite matches_run by done. simpl.
  split; [done|]. split; [eauto|].
  split.
  - destruct (head _) as [first_row|] eqn:Hhead; [|done].
    destruct (allows _ _) eqn:Hallows; [|done].
    intros [= <-].
    apply head_filter_split in Hhead as (pre & post & Hs & Hpre & Hor & Hd).
    by exists pre, post.
  - intros (pre & post & Hs & Hpre & Hor & Hd & Hallows).
    assert (head (filter (λ r, or_ (conditions_of entry) r
                               ∧ QueuedMovie.downloaded r = None) s)
            = Some movie) as ->.
    { apply head_filter_split. by exists pre, post. }
    by rewrite Hallows.
Qed.

(** The conditions for a candidate whose two ids are already set. *)
Lemma conditions_of_values title imdb_id tmdb_id quality :
  imdb_id ≠ "" → tmdb_id ≠ 0 →
  conditions_of (Entry.Build title (Value imdb_id) (Value tmdb_id) quality)
  = [ImdbIs imdb_id; TmdbIs tmdb_id].
Proof.
  intros Hi Ht. unfold conditions_of, phase. simpl.
  by rewrite (bool_decide_false (tmdb_id = 0)),
       (bool_decide_false (imdb_id = "")) by done.
Qed.
(** Without a configuration, or under another action than accept,
    nothing is matched. *)
Lemma matches_other_action config entry s :
  config = None ∨ (∃ c, config = Some c ∧ config_action c ≠ accept) →
  matches config entry s = (inr None, s).
Proof.
  intros [->|(c & -> & Hc)]; [done|].
  unfold matches. by rewrite bool_decide_false.
Qed.

(** A candidate for which neither pass finds an id is not matched. *)
Lemma matches_unidentifiable config entry s :
  conditions_of entry = [] → matches config entry s = (inr None, s).
Proof.
  intros Hnone. unfold matches. destruct config as [c|]; [|done].
  destruct (negb _); [done|]. by rewrite Hnone.
Qed.

(** When the quality collaborator lets "any" accept the default quality,
    a candidate of unknown quality is matched by the first pending row
    that agrees on an id and asks for "any". *)
Lemma matches_unknown_quality config entry pre movie post :
  allows "any" default_quality = true →
  config_action config = accept →
  conditions_of entry ≠ [] →
  Entry.quality entry = None →
  Forall (λ r, ¬ (or_ (conditions_of entry) r
                  ∧ QueuedMovie.downloaded r = None)) pre →
  or_ (conditions_of entry) movie →
  QueuedMovie.downloaded movie = None →
  QueuedMovie.quality movie = "any" →
  matches (Some config) entry (pre ++ movie :: post)
  = (inr (Some movie), pre ++ movie :: post).
Proof.
  intros Hany Hacc Hcond Hq Hpre Hor Hd Hreq.
  rewrite matches_run by done.
  assert (head (filter (λ r, or_ (conditions_of entry) r
                             ∧ QueuedMovie.downloaded r = None)
                  (pre ++ movie :: post)) = Some movie) as ->.
  { apply head_filter_split. by exists pre, post. }
  rewrite Hq, Hreq. simpl. by rewrite Hany.
Qed.
End MatchesFacts.

(** ** The listing API *)

Lemma ceil_div_bounds count max_results :
  0 < max_results →
  max_results * (ceil_div count max_results - 1) < count
  ≤ max_results * ceil_div count max_results.
Proof.
  intros Hpos. unfold ceil_div.
  pose proof (Z.div_mod (- count) max_results ltac:(lia)) as Hdiv.
  pose proof (Z.mod_pos_bound (- count) max_results Hpos) as Hmod.
  nia.
Qed.



Lemma queue_get_run downloaded s :
  queue_get downloaded s
  = (inr (if downloaded
          then filter (λ r, QueuedMovie.downloaded r ≠ None) s
          else filter (λ r, QueuedMovie.downloaded r = None) s), s).
Proof. by destruct downloaded. Qed.


(** C10: when the listing query finds no movie, and only then, the
    answer is the success body with its single 'success' key, whatever
    the page, the page size and the [downloaded] flag. *)
Theorem get_no_movies page max_results downloaded s :
  get page max_results downloaded s
  = (inr ([("success", JStr "no movies found in queue")], 200), s)
  ↔ queue_get downloaded s = (inr [], s).
Proof.
  assert (∃ movie_queue, queue_get downloaded s = (inr movie_queue, s))
    as [movie_queue Hget] by (unfold queue_get; destruct downloaded; run; eauto).
  unfold get. run. rewrite Hget. simpl.
  destruct movie_queue as [|movie rest]; [done|].
  rewrite decide_False by (simpl; lia).
  split; [|done].
  case_decide; [done|]. case_decide; [done|].
  by destruct (mapM _ _).
Qed.

(** ** Concrete runs *)

Example queue_add_inception :
  queue_add (Some "Inception") (Some "tt1375666") None None 7 []
  = (inr (Identity.Build (Some "Inception") (Some "tt1375666") None, "any"),
     [QueuedMovie.Build 1 (Some "Inception") 7 None None None None
        (Some "tt1375666") None "any"]).
Proof. reflexivity. Qed.

Example queue_add_by_title :
  fst (queue_add (Some "Inception") None None (Some "720p+") 7 [])
  = inr (Identity.Build (Some "Inception") (Some "tt1375666") (Some 27205), "720p+").
Proof. reflexivity. Qed.

Example get_page_3_of_5 :
  let s := (λ i, row i "m" None None (Some i) "any") <$> [1; 2; 3; 4; 5] in
  fst (get 3 2 false s)
  = inr ([("movies", JMovies [row 5 "m" None None (Some 5) "any"]);
          ("number_of_movies", JInt 5);
          ("page_number", JInt 3);
          ("total_number_of_pages", JInt 3)], 200).
Proof. reflexivity. Qed.

(** C1 as stated fails: the only row with the id is downloaded, so no row
    that is not downloaded matches, and yet the add is refused. *)
Lemma queue_add_downloaded_row_blocks :
  resolved (Some "Inception") (Some "tt1375666") None
  = inr (Identity.Build (Some "Inception") (Some "tt1375666") None)
  ∧ Forall (λ r, QueuedMovie.downloaded r = None →
                 ¬ already_queued (Some "tt1375666") None r) inception_downloaded
  ∧ queue_add (Some "Inception") (Some "tt1375666") None None 7 inception_downloaded
    = (inl (QueueError (AlreadyDownloaded (Some "Inception")) 1), inception_downloaded).
Proof.
  split; [reflexivity|]. split; [|reflexivity].
  repeat constructor. discriminate.
Qed.

Lemma queue_add_checks_every_row_witness :
  resolved (Some "Heat") (Some "tt0113277") None
  = inr (Identity.Build (Some "Heat") (Some "tt0113277") None)
  ∧ ((Forall (λ r, ¬ already_queued (Some "tt0113277") None r) inception_downloaded →
      queue_add (Some "Heat") (Some "tt0113277") None (Some "720p+") 7 inception_downloaded
      = (inr (Identity.Build (Some "Heat") (Some "tt0113277") None, "720p+"),
         inception_downloaded
         ++ [QueuedMovie.Build 2 (Some "Heat") 7 None None None None
               (Some "tt0113277") None "720p+"]))
     ∧ (∀ r, r ∈ inception_downloaded →
          already_queued (Some "tt0113277") None r →
          ∃ e, queue_add (Some "Heat") (Some "tt0113277") None (Some "720p+") 7
                 inception_downloaded = (inl e, inception_downloaded))).
Proof.
  split; [reflexivity|].
  apply (queue_add_checks_every_row (Some "Heat") (Some "tt0113277") None
           (Some "720p+") 7 inception_downloaded
           (Identity.Build (Some "Heat") (Some "tt0113277") None)).
  reflexivity.
Defined.

(** C2 as stated fails: the identity matches the second row, which is not
    downloaded, on its tmdb id; the add is refused as "queued and
    downloaded" all the same, because the first row, which matches on the
    imdb id, is. *)
Lemma queue_add_first_match_decides :
  resolved (Some "Inception") (Some "tt1375666") (Some 27205)
  = inr (Identity.Build (Some "Inception") (Some "tt1375666") (Some 27205))
  ∧ (∃ r, r ∈ mixed_rows
          ∧ already_queued (Some "tt1375666") (Some 27205) r
          ∧ QueuedMovie.downloaded r = None)
  ∧ queue_add (Some "Inception") (Some "tt1375666") (Some 27205) None 7 mixed_rows
    = (inl (QueueError (AlreadyDownloaded (Some "Inception")) 1), mixed_rows)
  ∧ queue_add (Some "Inception") (Some "tt1375666") (Some 27205) None 7 mixed_rows
    ≠ (inl (QueueError (AlreadyQueued (Some "Inception")) 1), mixed_rows).
Proof.
  split; [reflexivity|]. split; [|split; [reflexivity|discriminate]].
  exists (QueuedMovie.Build 2 (Some "Inception") 100 None None None None
            None (Some 27205) "any").
  split; [by_computation|]. split; [by_computation|done].
Qed.

(** The two rows of that session come from two adds, neither of which
    sees the other's id. *)
Example mixed_rows_reachable :
  snd (queue_add (Some "Inception") None (Some 27205) None 100
         (snd (queue_add (Some "Inception") (Some "tt1375666") None None 100 [])))
  = [row 1 "Inception" None (Some "tt1375666") None "any";
     QueuedMovie.Build 2 (Some "Inception") 100 None None None None
       None (Some 27205) "any"].
Proof. reflexivity. Qed.

Lemma queue_add_conflict_witness :
  ∃ item,
    first (filter (already_queued (Some "tt1375666") None) inception_wanted) = Some item
    ∧ item ∈ inception_wanted
    ∧ already_queued (Some "tt1375666") None item
    ∧ queue_add (Some "Inception") (Some "tt1375666") None None 7 inception_wanted
      = (inl (QueueError
                match QueuedMovie.downloaded item with
                | None => AlreadyQueued (Some "Inception")
                | Some _ => AlreadyDownloaded (Some "Inception")
                end 1), inception_wanted).
Proof.
  apply (queue_add_conflict (Some "Inception") (Some "tt1375666") None None 7
           inception_wanted
           (Identity.Build (Some "Inception") (Some "tt1375666") None)
           (row 1 "Inception" None (Some "tt1375666") (Some 27205) "any")).
  - reflexivity.
  - by_computation.
  - by_computation.
Defined.

(** The session of the next lemma is one that two adds produce. *)
Example two_pending_reachable :
  snd (queue_add (Some "Inception") None (Some 27205) (Some "720p+") 100
         (snd (queue_add (Some "Inception") (Some "tt1375666") None (Some "1080p")
                 100 [])))
  = two_pending.
Proof. reflexivity. Qed.

(** C3 as stated fails: the second row is not downloaded, agrees with the
    candidate on the tmdb id and allows its quality, but the first row,
    which agrees on the imdb id and does not allow it, is the only one
    tried. *)
Lemma matches_skips_later_rows :
  conditions_of candidate_720p = [ImdbIs "tt1375666"; TmdbIs 27205]
  ∧ matches (Some (ConfigStr accept)) candidate_720p two_pending = (inr None, two_pending)
  ∧ ∃ r, r ∈ two_pending
         ∧ QueuedMovie.downloaded r = None
         ∧ (QueuedMovie.imdb_id r = Some "tt1375666" ∨ QueuedMovie.tmdb_id r = Some 27205)
         ∧ allows (QueuedMovie.quality r) 720 = true.
Proof.
  split; [reflexivity|]. split; [reflexivity|].
  exists (QueuedMovie.Build 2 (Some "Inception") 100 None None None None
            None (Some 27205) "720p+").
  split; [by_computation|]. split; [done|]. split; [by right|done].
Qed.

Lemma matches_first_pending_witness :
  config_action (ConfigStr accept) = accept
  ∧ conditions_of candidate_720p ≠ []
  ∧ matches (Some (ConfigStr accept)) candidate_720p inception_wanted
    = (inr (Some (row 1 "Inception" None (Some "tt1375666") (Some 27205) "any")),
       inception_wanted).
Proof.
  split; [reflexivity|]. split; [discriminate|].
  pose proof (matches_first_pending (ConfigStr accept) candidate_720p inception_wanted
                (row 1 "Inception" None (Some "tt1375666") (Some 27205) "any")
                eq_refl ltac:(discriminate)) as (Hs & _ & Hiff).
  destruct (matches (Some (ConfigStr accept)) candidate_720p inception_wanted)
    as [found s'].
  simpl in *. subst s'. f_equal. apply Hiff.
  exists [], []. repeat split; try done.
  left. reflexivity.
Defined.

(** C5 as stated fails: the forgotten row keeps its provenance. *)
Lemma queue_forget_keeps_provenance :
  ∃ item',
    queue_forget None (Some "tt1375666") None inception_downloaded
    = (inr (Some "Inception"), [item'])
    ∧ QueuedMovie.downloaded item' = None
    ∧ QueuedMovie.entry_title item' = Some "Inception.mkv"
    ∧ QueuedMovie.entry_url item' = Some "http://example.org/a"
    ∧ QueuedMovie.entry_original_url item' = Some "http://example.org/b".
Proof. eexists. by split; [reflexivity|]. Qed.

Lemma queue_forget_frame_witness :
  wf inception_downloaded
  ∧ queue_forget None (Some "tt1375666") None inception_downloaded
    = (inr (Some "Inception"),
       [QueuedMovie.set_downloaded None
          (row 1 "Inception" (Some 50) (Some "tt1375666") (Some 27205) "any")])
  ∧ ∃ pre item item' post,
      inception_downloaded = pre ++ item :: post
      ∧ [QueuedMovie.set_downloaded None
           (row 1 "Inception" (Some 50) (Some "tt1375666") (Some 27205) "any")]
        = pre ++ item' :: post
      ∧ selected None (Some "tt1375666") None item
      ∧ QueuedMovie.downloaded item ≠ None
      ∧ Some "Inception" = QueuedMovie.title item
      ∧ QueuedMovie.downloaded item' = None
      ∧ QueuedMovie.title item' = QueuedMovie.title item
      ∧ QueuedMovie.imdb_id item' = QueuedMovie.imdb_id item
      ∧ QueuedMovie.tmdb_id item' = QueuedMovie.tmdb_id item
      ∧ QueuedMovie.quality item' = QueuedMovie.quality item
      ∧ QueuedMovie.entry_title item' = QueuedMovie.entry_title item
      ∧ QueuedMovie.entry_url item' = QueuedMovie.entry_url item
      ∧ QueuedMovie.entry_original_url item' = QueuedMovie.entry_original_url item
      ∧ QueuedMovie.id item' = QueuedMovie.id item
      ∧ QueuedMovie.added item' = QueuedMovie.added item.
Proof.
  split; [by_computation|]. split; [reflexivity|].
  apply (queue_forget_frame None (Some "tt1375666") None inception_downloaded).
  - by_computation.
  - reflexivity.
Defined.

Lemma queue_del_contract_witness :
  wf two_heats
  ∧ (∀ r, selected None (Some "tt0113277") None r ↔
          QueuedMovie.imdb_id r = Some "tt0113277")
  ∧ (filter (selected None (Some "tt0113277") None) two_heats = [] →
     queue_del None (Some "tt0113277") None two_heats
     = (inl (QueueError (NotFound None (Some "tt0113277") None) 0), two_heats))
  ∧ ((1 < length (filter (selected None (Some "tt0113277") None) two_heats))%nat →
     queue_del None (Some "tt0113277") None two_heats
     = (inl (QueueError (AmbiguousSelector None (Some "tt0113277") None) 0), two_heats))
  ∧ (∀ item, filter (selected None (Some "tt0113277") None) two_heats = [item] →
     ∃ pre post,
       two_heats = pre ++ item :: post
       ∧ Forall (λ r, ¬ selected None (Some "tt0113277") None r) (pre ++ post)
       ∧ queue_del None (Some "tt0113277") None two_heats
         = (inr (QueuedMovie.title item), pre ++ post)).
Proof.
  split; [by_computation|].
  apply (queue_del_contract None (Some "tt0113277") None two_heats).
  by_computation.
Defined.

Example queue_del_by_imdb_id :
  queue_del (Some "ignored") (Some "tt0113277") (Some 1) two_heats
  = (inr (Some "Heat"), [row 2 "Heat" (Some 60) (Some "tt0068688") None "720p+"]).
Proof. reflexivity. Qed.

Example queue_del_by_title_ambiguous :
  queue_del (Some "Heat") None None two_heats
  = (inl (QueueError (AmbiguousSelector (Some "Heat") None None) 0), two_heats).
Proof. reflexivity. Qed.

Example queue_del_not_found :
  queue_del None None (Some 27205) two_heats
  = (inl (QueueError (NotFound None None (Some 27205)) 0), two_heats).
Proof. reflexivity. Qed.


Example get_page_4_of_5 :
  fst (get 4 2 false five_movies) = inr ([("error", JNoPage 4)], 404).
Proof. reflexivity. Qed.

Example get_nothing_downloaded :
  fst (get 9 0 true five_movies)
  = inr ([("success", JStr "no movies found in queue")], 200).
Proof. reflexivity. Qed.

(** ** What the queue functions keep *)

Lemma sublist_omap {A B} (f : A → option B) (l1 l2 : list A) :
  l1 `sublist_of` l2 → omap f l1 `sublist_of` omap f l2.
Proof.
  induction 1 as [|x l1 l2 _ IH|x l1 l2 _ IH]; csimpl; [done| |].
  - destruct (f x); [by apply sublist_skip|done].
  - destruct (f x); [by apply sublist_cons|done].
Qed.

Lemma omap_fmap_same {A B} (f : A → option B) (g : A → A) (l : list A) :
  (∀ x, f (g x) = f x) → omap f (g <$> l) = omap f l.
Proof.
  intros Hfg. induction l as [|x l IH]; [done|].
  csimpl. by rewrite Hfg, IH.
Qed.

Lemma dedup_filter (P : QueuedMovie.t → Prop) `{∀ r, Decision (P r)} s :
  dedup s → dedup (filter P s).
Proof.
  intros [Hi Ht]. split; (eapply sublist_NoDup; [done|]);
    apply sublist_omap, sublist_filter.
Qed.

Lemma dedup_update (f : QueuedMovie.t → QueuedMovie.t) (P : QueuedMovie.t → Prop)
    `{∀ r, Decision (P r)} s :
  (∀ r, QueuedMovie.imdb_id (f r) = QueuedMovie.imdb_id r) →
  (∀ r, QueuedMovie.tmdb_id (f r) = QueuedMovie.tmdb_id r) →
  dedup s → dedup ((λ r, if decide (P r) then f r else r) <$> s).
Proof.
  intros Hi Ht [Hdi Hdt]. unfold dedup.
  rewrite !omap_fmap_same; [done| |]; intros r; by case_decide.
Qed.

Lemma filter_fresh_id s (item : QueuedMovie.t) :
  QueuedMovie.id item = next_id s →
  filter (λ r, QueuedMovie.id r ≠ next_id s) (s ++ [item]) = s.
Proof.
  intros Hid. rewrite filter_app, filter_all.
  - rewrite filter_cons_False by (intros Hne; by apply Hne).
    by rewrite app_nil_r.
  - apply Forall_forall. intros r Hr%next_id_fresh. lia.
Qed.

Section QueueAddKeeps.
Context `{Lookup}.

(** What a successful [queue_add] says about the session it started
    from. *)
Lemma queue_add_success title imdb_id tmdb_id quality now s added s' :
  queue_add title imdb_id tmdb_id quality now s = (inr added, s') →
  ∃ ident,
    resolved title imdb_id tmdb_id = inr ident
    ∧ added = (ident, default "any" quality)
    ∧ Forall (λ r, ¬ already_queued (Identity.imdb_id ident)
                     (Identity.tmdb_id ident) r) s
    ∧ s' = s ++ [QueuedMovie.Build (next_id s) (Identity.title ident) now None
                   None None None (Identity.imdb_id ident)
                   (Identity.tmdb_id ident) (default "any" quality)].
Proof.
  rewrite queue_add_run.
  destruct (resolved title imdb_id tmdb_id) as [e|ident]; [done|]. simpl.
  destruct (head _) as [item|] eqn:Hhead; [done|].
  intros [= <- <-]. exists ident. repeat split; try done.
  apply (filter_nil_Forall _ s). by destruct (filter _ s).
Qed.

Lemma queue_add_raises title imdb_id tmdb_id quality now s e s' :
  queue_add title imdb_id tmdb_id quality now s = (inl e, s') → s' = s.
Proof.
  rewrite queue_add_run.
  destruct (resolved title imdb_id tmdb_id) as [e'|ident]; [by intros [= _ <-]|].
  simpl. destruct (head _) as [item|]; [by intros [= _ <-]|done].
Qed.

(** X1: [queue_add] either raises and leaves the session as it found it, or
    appends exactly one row: not downloaded, without provenance, under
    the next primary key.  It never changes or removes a row. *)
Theorem queue_add_effect title imdb_id tmdb_id quality now s :
  (∃ e, queue_add title imdb_id tmdb_id quality now s = (inl e, s))
  ∨ (∃ ident,
       queue_add title imdb_id tmdb_id quality now s
       = (inr (ident, default "any" quality),
          s ++ [QueuedMovie.Build (next_id s) (Identity.title ident) now None
                  None None None (Identity.imdb_id ident)
                  (Identity.tmdb_id ident) (default "any" quality)])).
Proof.
  rewrite queue_add_run.
  destruct (resolved title imdb_id tmdb_id) as [e|ident]; [eauto|]. simpl.
  destruct (head _) as [item|]; eauto.
Qed.

(** X2: [queue_add] keeps the primary key unique and keeps the ids unique:
    after it, still no two rows share an imdb id or a tmdb id. *)
Theorem queue_add_keeps_invariants title imdb_id tmdb_id quality now s :
  wf s → dedup s →
  wf (snd (queue_add title imdb_id tmdb_id quality now s))
  ∧ dedup (snd (queue_add title imdb_id tmdb_id quality now s)).
Proof.
  intros Hwf [Hi Ht]. split; [by apply queue_add_wf|].
  destruct (queue_add title imdb_id tmdb_id quality now s) as [[e|added] s']
    eqn:Hadd; [by rewrite (queue_add_raises _ _ _ _ _ _ _ _ Hadd)|].
  destruct (queue_add_success _ _ _ _ _ _ _ _ Hadd)
    as (ident & _ & _ & Hnone & ->).
  simpl. unfold dedup. rewrite !omap_app. simpl.
  rewrite Forall_forall in Hnone.
  split.
  - destruct (Identity.imdb_id ident) as [i|] eqn:Hid;
      [|by rewrite app_nil_r].
    apply NoDup_app. split; [done|]. split; [|apply NoDup_singleton].
    intros ? (r & Hr & Heq)%list_elem_of_omap ->%list_elem_of_singleton.
    apply (Hnone r Hr). left. by rewrite Heq.
  - destruct (Identity.tmdb_id ident) as [t|] eqn:Hid;
      [|by rewrite app_nil_r].
    apply NoDup_app. split; [done|]. split; [|apply NoDup_singleton].
    intros ? (r & Hr & Heq)%list_elem_of_omap ->%list_elem_of_singleton.
    apply (Hnone r Hr). right. by rewrite Heq.
Qed.

(** X4: Adding the same movie twice: once an add has gone through for an
    identity with at least one id, adding that identity again raises
    "already in the queue" (errno 1) and changes nothing, whatever the
    quality asked for. *)
Theorem queue_add_twice title imdb_id tmdb_id quality now s ident added s'
    quality' now' :
  resolved title imdb_id tmdb_id = inr ident →
  Identity.imdb_id ident ≠ None ∨ Identity.tmdb_id ident ≠ None →
  queue_add title imdb_id tmdb_id quality now s = (inr added, s') →
  queue_add title imdb_id tmdb_id quality' now' s'
  = (inl (QueueError (AlreadyQueued (Identity.title ident)) 1), s').
Proof.
  intros Hres Hid Hadd.
  destruct (queue_add_success _ _ _ _ _ _ _ _ Hadd)
    as (ident' & Hres' & _ & Hnone & ->).
  rewrite Hres in Hres'. injection Hres' as <-.
  rewrite queue_add_run, Hres. simpl.
  rewrite filter_app. apply (filter_nil_Forall _ s) in Hnone. rewrite Hnone.
  rewrite filter_cons_True; [done|].
  unfold already_queued. simpl. tauto.
Qed.

(** X5: Add and delete undo each other: deleting by its imdb id the movie an
    add has just queued gives back the session the add started from, and
    returns the title the add resolved. *)
Theorem queue_add_then_del title imdb_id tmdb_id quality now s added s'
    title' tmdb_id' :
  queue_add title imdb_id tmdb_id quality now s = (inr added, s') →
  truthy_str (Identity.imdb_id (fst added)) = true →
  queue_del title' (Identity.imdb_id (fst added)) tmdb_id' s'
  = (inr (Identity.title (fst added)), s).
Proof.
  intros Hadd Himdb.
  destruct (queue_add_success _ _ _ _ _ _ _ _ Hadd)
    as (ident & _ & -> & Hnone & ->).
  simpl in *. rewrite queue_del_run.
  assert (filter (selected title' (Identity.imdb_id ident) tmdb_id') s = [])
    as Hs.
  { apply (filter_nil_Forall _ s). eapply Forall_impl; [exact Hnone|].
    intros r Hr Hsel. apply Hr. unfold selected in Hsel. rewrite Himdb in Hsel.
    left. split; [|done]. rewrite Hsel.
    by destruct (Identity.imdb_id ident). }
  rewrite filter_app, Hs, filter_cons_True
    by (unfold selected; by rewrite Himdb).
  simpl. by rewrite filter_fresh_id.
Qed.
End QueueAddKeeps.

Lemma queue_edit_wf quality imdb_id tmdb_id s :
  wf s → wf (snd (queue_edit quality imdb_id tmdb_id s)).
Proof.
  intros Hwf. rewrite queue_edit_run.
  destruct (filter _ s) as [|item [|item' rows]]; try done.
  by apply wf_update.
Qed.

(** X3: Deleting, forgetting and editing keep the primary key unique and
    the ids unique. *)
Theorem queue_changes_keep_invariants title imdb_id tmdb_id quality s :
  wf s → dedup s →
  (wf (snd (queue_del title imdb_id tmdb_id s))
   ∧ dedup (snd (queue_del title imdb_id tmdb_id s)))
  ∧ (wf (snd (queue_forget title imdb_id tmdb_id s))
     ∧ dedup (snd (queue_forget title imdb_id tmdb_id s)))
  ∧ (wf (snd (queue_edit quality imdb_id tmdb_id s))
     ∧ dedup (snd (queue_edit quality imdb_id tmdb_id s))).
Proof.
  intros Hwf Hdedup. split; [|split]; split.
  - by apply queue_del_wf.
  - rewrite queue_del_run.
    destruct (filter _ s) as [|item [|item' rows]]; try done.
    by apply dedup_filter.
  - by apply queue_forget_wf.
  - rewrite queue_forget_run.
    destruct (filter _ s) as [|item [|item' rows]]; try done.
    destruct (QueuedMovie.downloaded item); [|done].
    by apply dedup_update.
  - by apply queue_edit_wf.
  - rewrite queue_edit_run.
    destruct (filter _ s) as [|item [|item' rows]]; try done.
    by apply dedup_update.
Qed.

Lemma filter_middle {A} (P : A → Prop) `{∀ x, Decision (P x)} pre x post :
  Forall (λ y, ¬ P y) pre → Forall (λ y, ¬ P y) post →
  filter P (pre ++ x :: post) = if decide (P x) then [x] else [].
Proof.
  intros Hpre%(filter_nil_Forall P pre) Hpost%(filter_nil_Forall P post).
  rewrite filter_app, filter_cons, Hpre, Hpost. by case_decide.
Qed.

Lemma filter_outside {A} (P : A → Prop) `{∀ x, Decision (P x)} pre post :
  Forall (λ y, ¬ P y) pre → Forall (λ y, ¬ P y) post →
  filter P (pre ++ post) = [].
Proof.
  intros Hpre%(filter_nil_Forall P pre) Hpost%(filter_nil_Forall P post).
  by rewrite filter_app, Hpre, Hpost.
Qed.

(** X6: A delete is final: after a successful [queue_del], the same call
    finds nothing and raises "not found". *)
Theorem queue_del_twice title imdb_id tmdb_id s deleted s' :
  wf s →
  queue_del title imdb_id tmdb_id s = (inr deleted, s') →
  queue_del title imdb_id tmdb_id s'
  = (inl (QueueError (NotFound title imdb_id tmdb_id) 0), s').
Proof.
  intros Hwf. rewrite queue_del_run.
  destruct (filter _ s) as [|item [|item' rows]] eqn:Hone; try done.
  intros [= _ <-].
  destruct (filter_singleton_split _ s item Hone)
    as (pre & post & -> & _ & Hpre & Hpost).
  rewrite delete_by_id by done.
  by rewrite queue_del_run, filter_outside.
Qed.

(** X7: A forget cannot be repeated: after a successful [queue_forget], the
    same call finds the movie not downloaded and raises "is not marked as
    downloaded". *)
Theorem queue_forget_twice title imdb_id tmdb_id s forgotten s' :
  wf s →
  queue_forget title imdb_id tmdb_id s = (inr forgotten, s') →
  queue_forget title imdb_id tmdb_id s'
  = (inl (QueueError (NotDownloaded forgotten) 0), s').
Proof.
  intros Hwf. rewrite queue_forget_run.
  destruct (filter _ s) as [|item [|item' rows]] eqn:Hone; try done.
  destruct (QueuedMovie.downloaded item) as [t|] eqn:Hd; [|done].
  intros [= <- <-].
  destruct (filter_singleton_split _ s item Hone)
    as (pre & post & -> & Hsel & Hpre & Hpost).
  rewrite update_by_id by done.
  rewrite queue_forget_run, filter_middle by done.
  by rewrite decide_True.
Qed.


(** X9: A successful [queue_edit] rewrites the quality of the one row that
    has the imdb id it was given, and nothing else. *)
Theorem queue_edit_frame quality imdb_id tmdb_id s edited s' :
  wf s →
  queue_edit quality imdb_id tmdb_id s = (inr edited, s') →
  ∃ pre item post,
    s = pre ++ item :: post
    ∧ s' = pre ++ QueuedMovie.set_quality quality item :: post
    ∧ QueuedMovie.imdb_id item = imdb_id
    ∧ edited = QueuedMovie.title item
    ∧ Forall (λ r, QueuedMovie.imdb_id r ≠ imdb_id) (pre ++ post).
Proof.
  intros Hwf. rewrite queue_edit_run.
  destruct (filter _ s) as [|item [|item' rows]] eqn:Hone; try done.
  intros [= <- <-].
  destruct (filter_singleton_split _ s item Hone)
    as (pre & post & -> & Hsel & Hpre & Hpost).
  exists pre, item, post. rewrite update_by_id by done.
  repeat split; try done. by apply Forall_app.
Qed.

(** X10: The errors of [queue_edit]: without a row of the given imdb id it
    raises its "not found" QueueError; with several, which happens for a
    missing [imdb_id] as soon as two rows lack an imdb id,
    MultipleResultsFound leaves it unhandled.  Neither changes the
    session. *)
Theorem queue_edit_errors quality imdb_id tmdb_id s :
  match filter (λ r, QueuedMovie.imdb_id r = imdb_id) s with
  | [] => queue_edit quality imdb_id tmdb_id s
          = (inl (QueueError (EditNotFound imdb_id tmdb_id) 0), s)
  | [item] => ∃ s', queue_edit quality imdb_id tmdb_id s
                    = (inr (QueuedMovie.title item), s')
  | _ => queue_edit quality imdb_id tmdb_id s = (inl MultipleResultsFound, s)
  end.
Proof.
  rewrite queue_edit_run.
  destruct (filter _ s) as [|item [|item' rows]]; eauto.
Qed.

(** X11: The two listings of [queue_get] split the queue: every row is in
    exactly one of them, the pending ones in the first and the
    downloaded ones in the second, and the session is only read. *)
Theorem queue_get_partition s :
  ∃ pending downloaded,
    queue_get false s = (inr pending, s)
    ∧ queue_get true s = (inr downloaded, s)
    ∧ pending ++ downloaded ≡ₚ s
    ∧ Forall (λ r, QueuedMovie.downloaded r = None) pending
    ∧ Forall (λ r, QueuedMovie.downloaded r ≠ None) downloaded.
Proof.
  eexists _, _. repeat (split; [by rewrite queue_get_run|]).
  split; [apply filter_app_complement|].
  split; apply Forall_forall; by intros r [? _]%list_elem_of_filter.
Qed.

(** ** More on the listing API *)

(** [get] past its two guards, for a page that is not beyond the last. *)
Lemma get_listing page max_results downloaded s movie_queue movie_items :
  queue_get downloaded s = (inr movie_queue, s) →
  movie_queue ≠ [] →
  max_results ≠ 0 →
  page ≤ ceil_div (Z.of_nat (length movie_queue)) max_results →
  mapM (index movie_queue)
    (range ((page - 1) * max_results)
       (Z.min ((page - 1) * max_results + max_results)
          (Z.of_nat (length movie_queue))))
  = Some movie_items →
  get page max_results downloaded s
  = (inr ([("movies", JMovies movie_items);
           ("number_of_movies", JInt (Z.of_nat (length movie_queue)));
           ("page_number", JInt page);
           ("total_number_of_pages",
            JInt (ceil_div (Z.of_nat (length movie_queue)) max_results))], 200), s).
Proof.
  intros Hget Hne Hmax Hpage Hitems. unfold get. run. rewrite Hget. simpl.
  rewrite decide_False by (destruct movie_queue; [done|simpl; lia]).
  rewrite decide_False by done. rewrite decide_False by lia.
  replace (if decide ((page - 1) * max_results + max_results
                      > Z.of_nat (length movie_queue))
           then Z.of_nat (length movie_queue)
           else (page - 1) * max_results + max_results)
    with (Z.min ((page - 1) * max_results + max_results)
            (Z.of_nat (length movie_queue)))
    by (case_decide; lia).
  by rewrite Hitems.
Qed.




Lemma index_negative {A} (l : list A) (i : Z) :
  - Z.of_nat (length l) ≤ i < 0 →
  index l i = l !! Z.to_nat (i + Z.of_nat (length l)).
Proof.
  intros Hi. unfold index. cbv zeta.
  repeat case_decide; done || lia.
Qed.

Lemma mapM_index_range_negative {A} (l : list A) (n : nat) (start : Z) :
  - Z.of_nat (length l) ≤ start →
  start + Z.of_nat n ≤ 0 →
  mapM (index l) ((λ k : nat, start + Z.of_nat k) <$> seq 0 n)
  = Some (take n (drop (Z.to_nat (start + Z.of_nat (length l))) l)).
Proof.
  revert start. induction n as [|n IH]; intros start Hstart Hend; [done|].
  rewrite <- cons_seq, <- fmap_S_seq, fmap_cons, <- list_fmap_compose.
  rewrite (list_fmap_ext _ (λ k : nat, (start + 1) + Z.of_nat k) (seq 0 n))
    by (intros; simpl; lia).
  simpl. rewrite Z.add_0_r, index_negative by lia.
  destruct (l !! Z.to_nat (start + Z.of_nat (length l))) as [x|] eqn:Hx.
  - simpl. rewrite IH by lia. simpl.
    replace (Z.to_nat (start + 1 + Z.of_nat (length l)))
      with (S (Z.to_nat (start + Z.of_nat (length l)))) by lia.
    by rewrite (drop_S l x (Z.to_nat (start + Z.of_nat (length l)))).
  - apply lookup_ge_None in Hx. lia.
Qed.

(** X14: Page 0 is not refused: for a page size between 1 and the number of
    movies listed, it answers 200 with the last [max_results] movies of
    the listing, as 'page_number' 0. *)
Theorem get_page_zero max_results downloaded s movie_queue :
  queue_get downloaded s = (inr movie_queue, s) →
  0 < max_results ≤ Z.of_nat (length movie_queue) →
  get 0 max_results downloaded s
  = (inr ([("movies",
            JMovies (drop (length movie_queue - Z.to_nat max_results) movie_queue));
           ("number_of_movies", JInt (Z.of_nat (length movie_queue)));
           ("page_number", JInt 0);
           ("total_number_of_pages",
            JInt (ceil_div (Z.of_nat (length movie_queue)) max_results))], 200), s).
Proof.
  intros Hget Hmax.
  pose proof (ceil_div_bounds (Z.of_nat (length movie_queue)) max_results
                ltac:(lia)) as Hceil.
  apply get_listing; [done| |lia|nia|].
  { destruct movie_queue; [simpl in Hmax; lia|done]. }
  unfold range.
  replace (Z.min ((0 - 1) * max_results + max_results)
             (Z.of_nat (length movie_queue)) - (0 - 1) * max_results)
    with max_results by lia.
  rewrite mapM_index_range_negative by lia. f_equal.
  replace (Z.to_nat ((0 - 1) * max_results + Z.of_nat (length movie_queue)))
    with (length movie_queue - Z.to_nat max_results)%nat by lia.
  apply take_ge. rewrite length_drop. lia.
Qed.


(** ** More on the resolver *)

Lemma substring_all (s : string) :
  String.substring 0 (String.length s) s = s.
Proof. induction s as [|c s IH]; [done|]. simpl. by rewrite IH. Qed.

Section ResolverFacts.
Context `{Lookup}.

(** X16: The search string 'tmdb_id=<id>' is looked up by that tmdb id: when
    no imdb id is found in it, [parse_what] hands the lookup a search
    entry with the text after 'tmdb_id=' as tmdb id (no id at all when
    that text is empty), no imdb id and an empty title, and returns what
    the lookup finds, or a QueueError when it finds no movie name. *)
Theorem parse_what_tmdb_id (id : string) :
  truthy_str (extract_id ("tmdb_id=" +:+ id)) = false →
  parse_direct (Some ("tmdb_id=" +:+ id))
  = inr (Parsed.Build None (extract_id ("tmdb_id=" +:+ id)) (Some id))
  ∧ parse_what (Some ("tmdb_id=" +:+ id))
    = match lookup (SearchEntry.Build "" None
                      (if bool_decide (id = "") then None else Some id)) with
      | Some found => inr found
      | None => inl (QueueError LookupIncomplete 0)
      end.
Proof.
  intros Hno.
  assert (parse_direct (Some ("tmdb_id=" +:+ id))
          = inr (Parsed.Build None (extract_id ("tmdb_id=" +:+ id)) (Some id)))
    as Hdirect.
  { unfold parse_direct. rewrite Hno. simpl.
    change ("" +:+ id) with id. rewrite Nat.sub_0_r, substring_all.
    by destruct id. }
  split; [done|].
  unfold parse_what. rewrite Hdirect. simpl. rewrite Hno.
  by destruct (bool_decide (id = "")).
Qed.

(** X17: With a title and at least one id, [queue_add] does not consult the
    resolver: it behaves the same under any two lookup collaborators, and
    queues the identity it was given. *)
Theorem queue_add_complete_identity (other : Lookup) title imdb_id tmdb_id
    quality now s :
  truthy_str title = true →
  truthy_str imdb_id = true ∨ truthy_int tmdb_id = true →
  queue_add title imdb_id tmdb_id quality now s
  = @queue_add other title imdb_id tmdb_id quality now s
  ∧ resolved title imdb_id tmdb_id = inr (Identity.Build title imdb_id tmdb_id).
Proof.
  intros Ht Hid.
  assert (∀ L : Lookup, @resolved L title imdb_id tmdb_id
                        = inr (Identity.Build title imdb_id tmdb_id)) as Hres.
  { intros L. unfold resolved. rewrite Ht.
    by destruct Hid as [-> | ->]; rewrite ?orb_true_r. }
  split; [|done]. by rewrite !queue_add_run, !Hres.
Qed.

(** X18: Without a title, the [tmdb_id] given to [queue_add] plays no part:
    the call does the same with any other, the tmdb id that is queued
    being the one the lookup of [imdb_id] returns. *)
Theorem queue_add_untitled_drops_tmdb_id title imdb_id tmdb_id tmdb_id'
    quality now s :
  truthy_str title = false →
  queue_add title imdb_id tmdb_id quality now s
  = queue_add title imdb_id tmdb_id' quality now s.
Proof.
  intros Ht.
  assert (∀ t, resolved title imdb_id t = parse_what (or_str imdb_id title))
    as Hres by (intros t; unfold resolved; by rewrite Ht).
  by rewrite !queue_add_run, !Hres.
Qed.
End ResolverFacts.

(** ** More on matches *)

Section MatchesMore.
Context `{LazyFields}.

(** X19: What [matches] returns is a row of the queue that is not downloaded
    and whose requirement allows the candidate's quality; it returns
    nothing outside the accept action, and it leaves the session as it
    found it. *)
Theorem matches_sound config entry s movie s' :
  matches config entry s = (inr (Some movie), s') →
  s' = s
  ∧ movie ∈ s
  ∧ QueuedMovie.downloaded movie = None
  ∧ or_ (conditions_of entry) movie
  ∧ allows (QueuedMovie.quality movie)
      (default default_quality (Entry.quality entry)) = true
  ∧ ∃ c, config = Some c ∧ config_action c = accept.
Proof.
  destruct config as [c|]; [|done].
  destruct (decide (config_action c = accept)) as [Hacc|Hacc];
    [|by rewrite matches_other_action by eauto].
  destruct (decide (conditions_of entry = [])) as [Hnone|Hsome];
    [by rewrite matches_unidentifiable|].
  rewrite matches_run by done.
  destruct (head _) as [first_row|] eqn:Hhead; [|done].
  destruct (allows _ _) eqn:Hallows; [|done].
  intros [= -> <-].
  apply head_filter_split in Hhead as (pre & post & -> & _ & Hor & Hd).
  repeat split; try done; [|eauto].
  apply elem_of_app. right. left.
Qed.
End MatchesMore.

(** X20: An id that is already set keeps the lazy lookups from running: for a
    candidate with a non-empty imdb id or a non-zero tmdb id set,
    [matches] does the same under any two lazy-lookup collaborators. *)
Theorem matches_set_id_no_lookup `{Qualities} (one other : LazyFields)
    config entry s :
  (∃ v, Entry.imdb_id entry = Value v ∧ v ≠ "")
  ∨ (∃ v, Entry.tmdb_id entry = Value v ∧ v ≠ 0) →
  @matches _ one config entry s = @matches _ other config entry s.
Proof.
  intros Hset.
  assert (@conditions_of _ one entry = @conditions_of _ other entry) as Hc.
  { unfold conditions_of, phase, get_imdb_id, get_tmdb_id.
    destruct Hset as [(v & Hv & Hne)|(v & Hv & Hne)].
    - rewrite Hv; simpl.
      rewrite (bool_decide_false (v = "")) by done. simpl.
      by destruct (Entry.tmdb_id entry) as [|w|]; simpl;
        try destruct (bool_decide (w = 0)).
    - destruct (Entry.imdb_id entry) as [|w|] eqn:Hi; simpl; rewrite ?Hv; simpl;
        rewrite ?(bool_decide_false (v = 0)) by done; simpl; try done.
      by destruct (bool_decide (w = "")). }
  unfold matches. by rewrite Hc.
Qed.

Lemma conditions_of_lazy_imdb_id `{LazyFields} entry v :
  Entry.imdb_id entry = Lazy →
  Entry.imdb_id (eval_imdb_id entry) = Value v →
  v ≠ "" →
  conditions_of entry
  = match Entry.tmdb_id entry with
    | Value w =>
        if bool_decide (w = 0)
        then ImdbIs v :: match Entry.tmdb_id (eval_imdb_id entry) with
                         | Value w' => if bool_decide (w' = 0) then [] else [TmdbIs w']
                         | _ => []
                         end
        else [TmdbIs w]
    | _ => ImdbIs v :: match Entry.tmdb_id (eval_imdb_id entry) with
                       | Value w' => if bool_decide (w' = 0) then [] else [TmdbIs w']
                       | _ => []
                       end
    end.
Proof.
  intros Hlazy Hv Hne.
  assert ((phase true entry).1
          = ImdbIs v :: match Entry.tmdb_id (eval_imdb_id entry) with
                        | Value w' => if bool_decide (w' = 0) then [] else [TmdbIs w']
                        | _ => []
                        end) as Htrue.
  { unfold phase, get_imdb_id, get_tmdb_id. rewrite Hlazy. simpl. rewrite Hv.
    simpl. rewrite (bool_decide_false (v = "")) by done. simpl.
    destruct (Entry.tmdb_id (eval_imdb_id entry)) as [|w'|]; simpl; try done.
    by destruct (bool_decide (w' = 0)). }
  unfold conditions_of.
  assert (phase false entry
          = (match Entry.tmdb_id entry with
             | Value w => if bool_decide (w = 0) then [] else [TmdbIs w]
             | _ => []
             end, entry)) as ->.
  { unfold phase, get_imdb_id, get_tmdb_id. rewrite Hlazy. simpl.
    destruct (Entry.tmdb_id entry) as [|w|]; simpl; try done.
    by destruct (bool_decide (w = 0)). }
  destruct (Entry.tmdb_id entry) as [|w|]; simpl; try done.
  by destruct (bool_decide (w = 0)).
Qed.

(** X21: An imdb id found by the lazy lookup keeps the tmdb lookup from
    running: when the candidate's imdb id is lazy and its lookup sets a
    non-empty one, [matches] does the same under two collaborators that
    agree on that imdb lookup, whatever their tmdb lookups do. *)
Theorem matches_lazy_imdb_id_no_tmdb_lookup `{Qualities}
    (one other : LazyFields) config entry s v :
  Entry.imdb_id entry = Lazy →
  @eval_imdb_id _ one entry = @eval_imdb_id _ other entry →
  Entry.imdb_id (@eval_imdb_id _ one entry) = Value v →
  v ≠ "" →
  @matches _ one config entry s = @matches _ other config entry s.
Proof.
  intros Hlazy Hsame Hv Hne.
  assert (@conditions_of _ one entry = @conditions_of _ other entry) as Hc.
  { rewrite (@conditions_of_lazy_imdb_id _ one entry v) by done.
    rewrite (@conditions_of_lazy_imdb_id _ other entry v)
      by (done || by rewrite <- Hsame).
    by rewrite Hsame. }
  unfold matches. by rewrite Hc.
Qed.

(** ** The add API *)

Section AddAPIFacts.
Context `{Lookup} `{Requirements}.

Lemma queue_add_as_int title imdb_id tmdb_id quality now :
  queue_add_as truthy_int title imdb_id tmdb_id quality now
  = queue_add title imdb_id tmdb_id quality now.
Proof. reflexivity. Qed.

(** The text of a non-zero integer and the integer are true alike, so
    the API and the task plugin add such a movie the same way. *)
Lemma queue_add_as_text title imdb_id tmdb_id quality now :
  tmdb_id ≠ Some 0 →
  queue_add_as truthy_text title imdb_id tmdb_id quality now
  = queue_add title imdb_id tmdb_id quality now.
Proof.
  intros Hne.
  assert (truthy_text tmdb_id = truthy_int tmdb_id) as Heq.
  { unfold truthy_text, truthy_int. destruct tmdb_id as [z|].
    - rewrite bool_decide_true by done.
      by rewrite bool_decide_false by congruence.
    - by rewrite bool_decide_false by (intros Hn; by apply Hn). }
  unfold queue_add_as. rewrite Heq. reflexivity.
Qed.

Lemma queue_add_as_run truthy_tmdb title imdb_id tmdb_id quality now s :
  queue_add_as truthy_tmdb title imdb_id tmdb_id quality now s =
  match resolved_as truthy_tmdb title imdb_id tmdb_id with
  | inl e => (inl e, s)
  | inr ident =>
      let title := Identity.title ident in
      let imdb_id := Identity.imdb_id ident in
      let tmdb_id := Identity.tmdb_id ident in
      match head (filter (already_queued imdb_id tmdb_id) s) with
      | None =>
          (inr (ident, default "any" quality),
           s ++ [QueuedMovie.Build (next_id s) title now None None None None
                   imdb_id tmdb_id (default "any" quality)])
      | Some item =>
          (inl (QueueError
                  match QueuedMovie.downloaded item with
                  | Some _ => AlreadyDownloaded title
                  | None => AlreadyQueued title
                  end 1), s)
      end
  end.
Proof.
  unfold queue_add_as, resolved_as. run.
  destruct (negb (truthy_str title)
            || negb (truthy_str imdb_id || truthy_tmdb tmdb_id)).
  - destruct (parse_what (or_str imdb_id title)) as [e|[t i m]]; [done|]. simpl.
    destruct (head _) as [item|]; [|done].
    by destruct (QueuedMovie.downloaded item).
  - simpl. destruct (head _) as [item|]; [|done].
    by destruct (QueuedMovie.downloaded item).
Qed.

Lemma resolved_as_raises truthy_tmdb title imdb_id tmdb_id e :
  resolved_as truthy_tmdb title imdb_id tmdb_id = inl e →
  e = AttributeError ∨ e = QueueError LookupIncomplete 0.
Proof.
  unfold resolved_as, parse_what, parse_direct.
  destruct (_ || _); [|done].
  destruct (or_str imdb_id title) as [what|]; [|intros [= <-]; by left].
  destruct (negb _); [destruct (String.prefix _ _)|];
    (destruct (lookup _); [done|intros [= <-]; by right]).
Qed.

Lemma post_run title imdb_id tmdb_id quality now s :
  post title imdb_id tmdb_id quality now s =
  match requirements_error quality with
  | Some message => (inr (ReplyError (inl message), 400), s)
  | None =>
      match queue_add_as truthy_text title imdb_id tmdb_id (Some quality) now s with
      | (inr (movie, quality), s') =>
          (inr (ReplyAdded (Identity.title movie) (Identity.imdb_id movie)
                  (Identity.tmdb_id movie) quality, 200), s')
      | (inl (QueueError message _), s') =>
          (inr (ReplyError (inr message), 400), s')
      | (inl AttributeError, s') => (inr (ReplyNotEnough, 500), s')
      | (inl e, s') => (inl e, s')
      end
  end.
Proof.
  unfold post. destruct (requirements_error quality); [done|]. run.
  destruct (queue_add_as _ _ _ _ _ _ s) as [[e|[movie q]] s']; [|done].
  by destruct e.
Qed.

(** X22: [post] always answers, with 200, 400 or 500: no exception of
    [queue_add] gets past it.  The queue changes only under a 200, and
    then by the one row appended. *)
Theorem post_answers title imdb_id tmdb_id quality now s :
  ∃ reply status s',
    post title imdb_id tmdb_id quality now s = (inr (reply, status), s')
    ∧ ((status = 200 ∧ ∃ row, s' = s ++ [row])
       ∨ ((status = 400 ∨ status = 500) ∧ s' = s)).
Proof.
  rewrite post_run.
  destruct (requirements_error quality) as [message|]; [by eauto 10|].
  rewrite queue_add_as_run.
  destruct (resolved_as truthy_text title imdb_id tmdb_id) as [e|ident] eqn:Hres.
  - destruct (resolved_as_raises _ _ _ _ _ Hres) as [-> | ->]; by eauto 10.
  - simpl. destruct (head _) as [item|]; by eauto 10.
Qed.

(** X23: What [post] turns down before the queue is looked at: a quality
    text that [Requirements] does not parse is answered 400 with the
    parser's message; a request with neither title nor imdb id is
    answered 500 "not enough parameters", also when it carries a tmdb
    id. *)
Theorem post_rejections title imdb_id tmdb_id quality now s :
  (∀ message, requirements_error quality = Some message →
     post title imdb_id tmdb_id quality now s
     = (inr (ReplyError (inl message), 400), s))
  ∧ (requirements_error quality = None →
     post None None tmdb_id quality now s = (inr (ReplyNotEnough, 500), s)).
Proof.
  split.
  - intros message Hbad. by rewrite post_run, Hbad.
  - intros Hok. by rewrite post_run, Hok, queue_add_as_run.
Qed.

(** X24: A request for a movie that is in the queue already is answered 400
    with [queue_add]'s message for the first row with one of its ids, and
    the queue stays as it is.  The identity is the one the request
    resolves to, its tmdb id counting as given whenever the request has
    one. *)
Theorem post_conflict title imdb_id tmdb_id quality now s ident r :
  requirements_error quality = None →
  resolved_as truthy_text title imdb_id tmdb_id = inr ident →
  r ∈ s →
  already_queued (Identity.imdb_id ident) (Identity.tmdb_id ident) r →
  ∃ item,
    first (filter (already_queued (Identity.imdb_id ident)
                     (Identity.tmdb_id ident)) s) = Some item
    ∧ post title imdb_id tmdb_id quality now s
      = (inr (ReplyError
                (inr match QueuedMovie.downloaded item with
                     | None => AlreadyQueued (Identity.title ident)
                     | Some _ => AlreadyDownloaded (Identity.title ident)
                     end), 400), s).
Proof.
  intros Hok Hres Hin Hr.
  destruct (head_filter_elem _ s r Hin Hr) as (item & Hhead & _).
  exists item. split; [done|].
  rewrite post_run, Hok, queue_add_as_run, Hres. simpl. rewrite Hhead.
  by destruct (QueuedMovie.downloaded item).
Qed.

(** A title with the tmdb id "0": the id counts as given, nothing is
    looked up, and the movie is queued under tmdb id 0. *)
Lemma post_tmdb_id_zero title quality now s :
  truthy_str title = true →
  requirements_error quality = None →
  Forall (λ r, QueuedMovie.tmdb_id r ≠ Some 0) s →
  post title None (Some 0) quality now s
  = (inr (ReplyAdded title None (Some 0) quality, 200),
     s ++ [QueuedMovie.Build (next_id s) title now None None None None
             None (Some 0) quality]).
Proof.
  intros Ht Hok Hnone.
  rewrite post_run, Hok, queue_add_as_run. unfold resolved_as. rewrite Ht. simpl.
  assert (filter (already_queued None (Some 0)) s = []) as ->; [|done].
  apply (filter_nil_Forall _ s). eapply Forall_impl; [exact Hnone|].
  intros r Hr [[Hi Hi']|[_ Ht']]; [by rewrite Hi' in Hi|done].
Qed.
End AddAPIFacts.

(** ** The output phase *)

Lemma then_unit_run {A} (m : M A) s :
  (m;; mret ()) s
  = match m s with
    | (inr _, s') => (inr (), s')
    | (inl e, s') => (inl e, s')
    end.
Proof. unfold mbind, M_bind. by destruct (m s) as [[e|a] s']. Qed.

Section OutputFacts.
Context `{LazyAccepted} `{!QualityNames} `{Lookup} `{Requirements}.

(** X25: Under the accept action the output phase leaves the queue alone and
    fails no entry. *)
Theorem on_task_output_accept c accepted s :
  config_action c = accept →
  on_task_output (Some c) accepted s = (inr ((λ _, None) <$> accepted), s).
Proof.
  intros Hacc. simpl.
  induction accepted as [|[entry now] accepted IH]; [done|].
  simpl. unfold output_entry at 1. rewrite Hacc.
  destruct (kwargs_of entry) as [[imdb_id tmdb_id] title].
  destruct (bool_decide _); simpl; by rewrite IH.
Qed.

(** X26: An entry for which neither pass finds an id is passed over: it is
    not failed, the queue is not touched, and the loop goes on. *)
Theorem on_task_output_skips c entry now accepted s title :
  kwargs_of entry = (None, None, title) →
  on_task_output (Some c) ((entry, now) :: accepted) s
  = match on_task_output (Some c) accepted s with
    | (inr failed, s') => (inr (None :: failed), s')
    | r => r
    end.
Proof.
  intros Hk. simpl. unfold output_entry at 1. rewrite Hk.
  rewrite bool_decide_true by done.
  by destruct (on_task_output_loop _ _ _) as [[e|r] s'].
Qed.

(** X27: Under the add action, an entry whose movie is queued already is not
    failed (the errno 1 of the QueueError is let through), the queue is
    not touched, and the loop goes on. *)
Theorem on_task_output_add_queued c entry now accepted s
    imdb_id tmdb_id title ident r :
  config_action c = add →
  kwargs_of entry = (imdb_id, tmdb_id, title) →
  imdb_id ≠ None ∨ tmdb_id ≠ None →
  requirements_error (add_quality c entry) = None →
  resolved title imdb_id tmdb_id = inr ident →
  r ∈ s →
  already_queued (Identity.imdb_id ident) (Identity.tmdb_id ident) r →
  on_task_output (Some c) ((entry, now) :: accepted) s
  = match on_task_output (Some c) accepted s with
    | (inr failed, s') => (inr (None :: failed), s')
    | r => r
    end.
Proof.
  intros Hadd Hk Hid Hok Hres Hin Hr. simpl. unfold output_entry at 1.
  rewrite Hk, Hadd, Hok. rewrite bool_decide_false by tauto.
  cbv beta iota zeta. rewrite then_unit_run, queue_add_run, Hres.
  cbv beta iota zeta.
  destruct (head_filter_elem _ s r Hin Hr) as (item & -> & _).
  by destruct (on_task_output_loop _ _ _) as [[e|failed] s'].
Qed.

(** X28: Under the add action, an entry that brings a tmdb id but no imdb id
    and no movie name stops the whole loop: the AttributeError of
    [queue_add] is not a QueueError and goes through. *)
Theorem on_task_output_add_tmdb_id_only c entry now accepted s tmdb_id :
  config_action c = add →
  kwargs_of entry = (None, Some tmdb_id, None) →
  requirements_error (add_quality c entry) = None →
  on_task_output (Some c) ((entry, now) :: accepted) s
  = (inl (Raised AttributeError), s).
Proof.
  intros Hadd Hk Hok. simpl. unfold output_entry. rewrite Hk, Hadd, Hok.
  rewrite bool_decide_false by (by intros [_ ?]).
  cbv beta iota zeta. by rewrite then_unit_run, queue_add_run.
Qed.

(** X29: Under the remove and forget actions, an entry whose movie is not in
    the queue is failed with the "not found" message, and the loop goes
    on with the queue as it was. *)
Theorem on_task_output_not_found c entry now accepted s imdb_id tmdb_id title :
  config_action c = remove ∨ config_action c = forget →
  kwargs_of entry = (imdb_id, tmdb_id, title) →
  imdb_id ≠ None ∨ tmdb_id ≠ None →
  filter (selected title imdb_id tmdb_id) s = [] →
  on_task_output (Some c) ((entry, now) :: accepted) s
  = match on_task_output (Some c) accepted s with
    | (inr failed, s') =>
        (inr (Some (NotFound title imdb_id tmdb_id) :: failed), s')
    | r => r
    end.
Proof.
  intros Hact Hk Hid Hnone. simpl. unfold output_entry at 1.
  rewrite Hk. rewrite bool_decide_false by tauto.
  destruct Hact as [-> | ->]; cbv beta iota zeta; rewrite then_unit_run.
  - rewrite queue_del_run, Hnone.
    by destruct (on_task_output_loop _ _ _) as [[e|failed] s'].
  - rewrite queue_forget_run, Hnone.
    by destruct (on_task_output_loop _ _ _) as [[e|failed] s'].
Qed.

End OutputFacts.

(** ** Selecting by id *)

Lemma filter_by_key_unique {A B} `{EqDecision B} (f : A → option B) (k : B)
    (l : list A) :
  NoDup (omap f l) → (length (filter (λ x, f x = Some k) l) ≤ 1)%nat.
Proof.
  induction l as [|x l IH]; [simpl; lia|].
  csimpl. rewrite filter_cons. destruct (f x) as [k'|] eqn:Hfx.
  - intros [Hnot Hnd]%NoDup_cons. destruct (decide (Some k' = Some k)) as [[= ->]|].
    + assert (filter (λ y, f y = Some k) l = []) as ->; [|simpl; lia].
      apply (filter_nil_Forall _ l), Forall_forall. intros y Hy Hfy.
      apply Hnot, list_elem_of_omap. eauto.
    + by apply IH.
  - intros Hnd. rewrite decide_False by done. by apply IH.
Qed.

(** X12: A selection by id is never ambiguous in a queue whose ids are
    unique: with a non-empty imdb id or a non-zero tmdb id, [queue_del]
    does not raise "matches multiple results" and [queue_forget] does not
    let MultipleResultsFound through. *)
Theorem select_by_id_unambiguous title imdb_id tmdb_id s :
  dedup s →
  truthy_str imdb_id = true ∨ truthy_int tmdb_id = true →
  (length (filter (selected title imdb_id tmdb_id) s) ≤ 1)%nat
  ∧ fst (queue_del title imdb_id tmdb_id s)
    ≠ inl (QueueError (AmbiguousSelector title imdb_id tmdb_id) 0)
  ∧ fst (queue_forget title imdb_id tmdb_id s) ≠ inl MultipleResultsFound.
Proof.
  intros [Hi Ht] Hid.
  assert (length (filter (selected title imdb_id tmdb_id) s) ≤ 1)%nat as Hle.
  { destruct (truthy_str imdb_id) eqn:Htruthy.
    - destruct imdb_id as [i|]; [|done].
      rewrite (list_filter_iff _ (λ r, QueuedMovie.imdb_id r = Some i))
        by (intros r; unfold selected; by rewrite Htruthy).
      by apply filter_by_key_unique.
    - destruct Hid as [|Hid]; [done|].
      destruct tmdb_id as [t|]; [|done].
      rewrite (list_filter_iff _ (λ r, QueuedMovie.tmdb_id r = Some t))
        by (intros r; unfold selected; by rewrite Htruthy, Hid).
      by apply filter_by_key_unique. }
  split; [done|]. rewrite queue_del_run, queue_forget_run.
  destruct (filter _ s) as [|item [|item' rows]]; simpl in Hle; [done| |lia].
  split; [done|]. by destruct (QueuedMovie.downloaded item).
Qed.

(** ** Concrete runs of the further properties *)

Lemma queue_add_keeps_invariants_witness :
  wf inception_downloaded ∧ dedup inception_downloaded
  ∧ wf (snd (queue_add (Some "Heat") (Some "tt0113277") None None 7
               inception_downloaded))
  ∧ dedup (snd (queue_add (Some "Heat") (Some "tt0113277") None None 7
                  inception_downloaded)).
Proof.
  split; [by_computation|]. split; [by_computation|].
  apply (queue_add_keeps_invariants (Some "Heat") (Some "tt0113277") None None 7
           inception_downloaded); by_computation.
Defined.

Lemma queue_changes_keep_invariants_witness :
  wf two_heats ∧ dedup two_heats
  ∧ (wf (snd (queue_del None (Some "tt0113277") None two_heats))
     ∧ dedup (snd (queue_del None (Some "tt0113277") None two_heats)))
  ∧ (wf (snd (queue_forget None (Some "tt0113277") None two_heats))
     ∧ dedup (snd (queue_forget None (Some "tt0113277") None two_heats)))
  ∧ (wf (snd (queue_edit "1080p" (Some "tt0113277") None two_heats))
     ∧ dedup (snd (queue_edit "1080p" (Some "tt0113277") None two_heats))).
Proof.
  split; [by_computation|]. split; [by_computation|].
  apply (queue_changes_keep_invariants None (Some "tt0113277") None "1080p"
           two_heats); by_computation.
Defined.

Lemma queue_add_twice_witness :
  queue_add (Some "Inception") (Some "tt1375666") None (Some "720p+") 9
    [QueuedMovie.Build 1 (Some "Inception") 7 None None None None
       (Some "tt1375666") None "any"]
  = (inl (QueueError (AlreadyQueued (Some "Inception")) 1),
     [QueuedMovie.Build 1 (Some "Inception") 7 None None None None
        (Some "tt1375666") None "any"]).
Proof.
  apply (queue_add_twice (Some "Inception") (Some "tt1375666") None None 7 []
           (Identity.Build (Some "Inception") (Some "tt1375666") None)
           (Identity.Build (Some "Inception") (Some "tt1375666") None, "any")
           [QueuedMovie.Build 1 (Some "Inception") 7 None None None None
              (Some "tt1375666") None "any"]
           (Some "720p+") 9).
  - reflexivity.
  - left. discriminate.
  - reflexivity.
Defined.

Lemma queue_add_then_del_witness :
  queue_del (Some "The Heat") (Some "tt0113277") (Some 1)
    (inception_downloaded
     ++ [QueuedMovie.Build 2 (Some "Heat") 7 None None None None
           (Some "tt0113277") None "any"])
  = (inr (Some "Heat"), inception_downloaded).
Proof.
  apply (queue_add_then_del (Some "Heat") (Some "tt0113277") None None 7
           inception_downloaded
           (Identity.Build (Some "Heat") (Some "tt0113277") None, "any")
           (inception_downloaded
            ++ [QueuedMovie.Build 2 (Some "Heat") 7 None None None None
                  (Some "tt0113277") None "any"])
           (Some "The Heat") (Some 1)).
  - reflexivity.
  - reflexivity.
Defined.

Lemma queue_del_twice_witness :
  queue_del None (Some "tt0113277") None
    [row 2 "Heat" (Some 60) (Some "tt0068688") None "720p+"]
  = (inl (QueueError (NotFound None (Some "tt0113277") None) 0),
     [row 2 "Heat" (Some 60) (Some "tt0068688") None "720p+"]).
Proof.
  apply (queue_del_twice None (Some "tt0113277") None two_heats (Some "Heat")).
  - by_computation.
  - reflexivity.
Defined.

Lemma queue_forget_twice_witness :
  queue_forget None (Some "tt1375666") None
    [QueuedMovie.set_downloaded None
       (row 1 "Inception" (Some 50) (Some "tt1375666") (Some 27205) "any")]
  = (inl (QueueError (NotDownloaded (Some "Inception")) 0),
     [QueuedMovie.set_downloaded None
        (row 1 "Inception" (Some 50) (Some "tt1375666") (Some 27205) "any")]).
Proof.
  apply (queue_forget_twice None (Some "tt1375666") None inception_downloaded).
  - by_computation.
  - reflexivity.
Defined.


Lemma queue_edit_frame_witness :
  ∃ pre item post,
    two_heats = pre ++ item :: post
    ∧ snd (queue_edit "1080p" (Some "tt0068688") (Some 949) two_heats)
      = pre ++ QueuedMovie.set_quality "1080p" item :: post
    ∧ QueuedMovie.imdb_id item = Some "tt0068688"
    ∧ Some "Heat" = QueuedMovie.title item
    ∧ Forall (λ r, QueuedMovie.imdb_id r ≠ Some "tt0068688") (pre ++ post).
Proof.
  apply (queue_edit_frame "1080p" (Some "tt0068688") (Some 949) two_heats).
  - by_computation.
  - reflexivity.
Defined.

Lemma select_by_id_unambiguous_witness :
  dedup two_heats
  ∧ (length (filter (selected (Some "Heat") None (Some 949%Z)) two_heats) ≤ 1)%nat
  ∧ fst (queue_del (Some "Heat") None (Some 949) two_heats)
    ≠ inl (QueueError (AmbiguousSelector (Some "Heat") None (Some 949)) 0)
  ∧ fst (queue_forget (Some "Heat") None (Some 949) two_heats)
    ≠ inl MultipleResultsFound.
Proof.
  split; [by_computation|].
  apply (select_by_id_unambiguous (Some "Heat") None (Some 949) two_heats).
  - by_computation.
  - right. reflexivity.
Defined.


Lemma get_page_zero_witness :
  get 0 2 false five_movies
  = (inr ([("movies", JMovies [row 4 "m" None None (Some 4) "any";
                               row 5 "m" None None (Some 5) "any"]);
           ("number_of_movies", JInt 5);
           ("page_number", JInt 0);
           ("total_number_of_pages", JInt 3)], 200), five_movies).
Proof.
  apply (get_page_zero 2 false five_movies five_movies).
  - reflexivity.
  - split; [lia|vm_compute; discriminate].
Defined.


Lemma parse_what_tmdb_id_witness :
  parse_direct (Some "tmdb_id=27205") = inr (Parsed.Build None None (Some "27205"))
  ∧ parse_what (Some "tmdb_id=27205")
    = inr (Identity.Build (Some "Inception") (Some "tt1375666") (Some 27205)).
Proof.
  exact (parse_what_tmdb_id "27205" eq_refl).
Defined.

Lemma queue_add_complete_identity_witness :
  queue_add (Some "Heat") None (Some 949) None 7 inception_wanted
  = @queue_add lookup_nothing (Some "Heat") None (Some 949) None 7 inception_wanted
  ∧ resolved (Some "Heat") None (Some 949)
    = inr (Identity.Build (Some "Heat") None (Some 949)).
Proof.
  apply (queue_add_complete_identity lookup_nothing (Some "Heat") None (Some 949)
           None 7 inception_wanted).
  - reflexivity.
  - right. reflexivity.
Defined.

Lemma queue_add_untitled_drops_tmdb_id_witness :
  queue_add None (Some "tt1375666") (Some 949) None 7 []
  = queue_add None (Some "tt1375666") None None 7 [].
Proof.
  apply (queue_add_untitled_drops_tmdb_id None (Some "tt1375666") (Some 949) None
           None 7 []).
  reflexivity.
Defined.

Lemma matches_sound_witness :
  inception_wanted = inception_wanted
  ∧ row 1 "Inception" None (Some "tt1375666") (Some 27205) "any" ∈ inception_wanted
  ∧ QueuedMovie.downloaded
      (row 1 "Inception" None (Some "tt1375666") (Some 27205) "any") = None
  ∧ or_ (conditions_of candidate_720p)
      (row 1 "Inception" None (Some "tt1375666") (Some 27205) "any")
  ∧ allows "any" 720 = true
  ∧ ∃ c, Some (ConfigStr accept) = Some c ∧ config_action c = accept.
Proof.
  apply (matches_sound (Some (ConfigStr accept)) candidate_720p inception_wanted
           (row 1 "Inception" None (Some "tt1375666") (Some 27205) "any")
           inception_wanted).
  reflexivity.
Defined.

Lemma matches_set_id_no_lookup_witness :
  @matches _ example_lazy (Some (ConfigStr accept)) candidate_720p two_pending
  = @matches _ lazy_both_found (Some (ConfigStr accept)) candidate_720p two_pending.
Proof.
  apply (matches_set_id_no_lookup example_lazy lazy_both_found
           (Some (ConfigStr accept)) candidate_720p two_pending).
  left. exists "tt1375666". split; [reflexivity|discriminate].
Defined.

Lemma matches_lazy_imdb_id_no_tmdb_lookup_witness :
  @matches _ lazy_imdb_found (Some (ConfigStr accept)) candidate_lazy two_pending
  = @matches _ lazy_both_found (Some (ConfigStr accept)) candidate_lazy two_pending.
Proof.
  apply (matches_lazy_imdb_id_no_tmdb_lookup lazy_imdb_found lazy_both_found
           (Some (ConfigStr accept)) candidate_lazy two_pending "tt1375666").
  - reflexivity.
  - reflexivity.
  - reflexivity.
  - discriminate.
Defined.

Example post_tmdb_id_zero_inserts :
  post (Some "Inception") None (Some 0) "any" 7 inception_wanted
  = (inr (ReplyAdded (Some "Inception") None (Some 0) "any", 200),
     inception_wanted
     ++ [QueuedMovie.Build 2 (Some "Inception") 7 None None None None
           None (Some 0) "any"]).
Proof. reflexivity. Qed.

Lemma post_conflict_witness :
  ∃ item,
    first (filter (already_queued (Some "tt1375666") (Some 27205)) inception_downloaded)
    = Some item
    ∧ post None (Some "tt1375666") None "720p+" 7 inception_downloaded
      = (inr (ReplyError
                (inr match QueuedMovie.downloaded item with
                     | None => AlreadyQueued (Some "Inception")
                     | Some _ => AlreadyDownloaded (Some "Inception")
                     end), 400), inception_downloaded).
Proof.
  apply (post_conflict None (Some "tt1375666") None "720p+" 7 inception_downloaded
           (Identity.Build (Some "Inception") (Some "tt1375666") (Some 27205))
           (row 1 "Inception" (Some 50) (Some "tt1375666") (Some 27205) "any")).
  - reflexivity.
  - reflexivity.
  - by_computation.
  - by_computation.
Defined.

Lemma on_task_output_accept_witness :
  on_task_output (Some (ConfigStr accept))
    [(accepted_inception, 7); (accepted_unknown, 8)] inception_wanted
  = (inr [None; None], inception_wanted).
Proof.
  apply (on_task_output_accept (ConfigStr accept)
           [(accepted_inception, 7); (accepted_unknown, 8)] inception_wanted).
  reflexivity.
Defined.

Lemma on_task_output_skips_witness :
  on_task_output (Some (ConfigDict add (Some "720p+")))
    [(accepted_unknown, 7); (accepted_inception, 8)] []
  = match on_task_output (Some (ConfigDict add (Some "720p+")))
            [(accepted_inception, 8)] [] with
    | (inr failed, s') => (inr (None :: failed), s')
    | r => r
    end.
Proof.
  apply (on_task_output_skips (ConfigDict add (Some "720p+")) accepted_unknown 7
           [(accepted_inception, 8)] [] None).
  reflexivity.
Defined.

Lemma on_task_output_add_queued_witness :
  on_task_output (Some (ConfigStr add))
    [(accepted_inception, 7); (accepted_unknown, 8)] inception_wanted
  = match on_task_output (Some (ConfigStr add)) [(accepted_unknown, 8)]
            inception_wanted with
    | (inr failed, s') => (inr (None :: failed), s')
    | r => r
    end.
Proof.
  apply (on_task_output_add_queued (ConfigStr add) accepted_inception 7
           [(accepted_unknown, 8)] inception_wanted
           (Some "tt1375666") (Some 27205) (Some "Inception")
           (Identity.Build (Some "Inception") (Some "tt1375666") (Some 27205))
           (row 1 "Inception" None (Some "tt1375666") (Some 27205) "any")).
  - reflexivity.
  - reflexivity.
  - left. discriminate.
  - reflexivity.
  - reflexivity.
  - by_computation.
  - by_computation.
Defined.

Lemma on_task_output_add_tmdb_id_only_witness :
  on_task_output (Some (ConfigStr add))
    [(accepted_tmdb_only, 7); (accepted_inception, 8)] []
  = (inl (Raised AttributeError), []).
Proof.
  apply (on_task_output_add_tmdb_id_only (ConfigStr add) accepted_tmdb_only 7
           [(accepted_inception, 8)] [] 27205).
  - reflexivity.
  - reflexivity.
  - reflexivity.
Defined.

Lemma on_task_output_not_found_witness :
  on_task_output (Some (ConfigStr remove)) [(accepted_inception, 7)] two_heats
  = match on_task_output (Some (ConfigStr remove)) [] two_heats with
    | (inr failed, s') =>
        (inr (Some (NotFound (Some "Inception") (Some "tt1375666") (Some 27205))
              :: failed), s')
    | r => r
    end.
Proof.
  apply (on_task_output_not_found (ConfigStr remove) accepted_inception 7 []
           two_heats (Some "tt1375666") (Some 27205) (Some "Inception")).
  - left. reflexivity.
  - reflexivity.
  - left. discriminate.
  - reflexivity.
Defined.
